(** * tinytop: host-metrics sampler

    A shallow embedding of the Go packages of gitmanntoo/tinytop

      - [pkg/psutil]  (snapshot assembly, [Info]),
      - [pkg/utils]   ([InitLogger]),
      - [pkg/config]  ([ParseFlags]),
      - [pkg/system]  (privilege detection),
      - [pkg/core]    ([App.Run]; both the current revision and the
                       revision that still carries the tick loop),
      - [main],

    together with the properties of the scheduler and of the assembler
    that the specification states.

    Conventions.  A Go [error] is [option string] ([None] is [nil]); a Go
    function returning [(T, error)] returns a pair; a pointer is an
    [option]; a slice is a [list]; a [map[string]T] is a [gmap string T];
    [time.Duration] and instants are [Z] nanoseconds.  The operating
    system, the Go runtime and the third-party libraries (gopsutil,
    zerolog, flag, encoding/json) are not part of the repository: they
    enter as an environment [Env] of oracles.  Every call that leaves the
    program, and every log line, is recorded in a trace of [Event]s. *)

From Stdlib Require Import ZArith Lia.
From stdpp Require Import base tactics option list strings pretty gmap.

Local Open Scope string_scope.
Local Open Scope list_scope.
Local Open Scope Z_scope.

(** ** Go values *)

Definition error : Type := option string.

(** A call that may terminate the whole process ([os.Exit]). *)
Inductive Outcome (A : Type) : Type :=
| Returned (a : A)
| Exited (code : Z).
Arguments Returned {A} a.
Arguments Exited {A} code.

(** ** gopsutil data

    The statistics structures of gopsutil are only stored and handed to
    the JSON encoder, so they stay abstract; [disk.PartitionStat] is
    inspected by [psutil.Info] and is spelled out. *)

Class GopsutilTypes : Type := {
  cpu_InfoStat : Type;
  disk_UsageStat : Type;
  disk_IOCountersStat : Type;
  host_InfoStat : Type;
  mem_VirtualMemoryStat : Type;
  mem_SwapDevice : Type;
  mem_SwapMemoryStat : Type;
  sensors_TemperatureStat : Type
}.

Record disk_PartitionStat : Type := {
  Device : string;
  Mountpoint : string;
  Fstype : string;
  Opts : list string
}.

Record user_User : Type := {
  Uid : string;
  Username : string
}.

(** ** Trace of observable operations *)

Inductive Level : Type := InfoLevel | WarnLevel | ErrorLevel | FatalLevel.

(** The fields attached to a zerolog event before [Msg]. *)
Inductive Field : Type :=
| Str (key val : string)
| Bool (key : string) (val : bool)
| Dur (key : string) (val : Z)
| RawJSON (key json : string)
| Err (e : string).

Inductive Event : Type :=
| Call (fn : string) (args : list string)   (* a function outside the program, or [psutil.Info] *)
| Log (lvl : Level) (fields : list Field) (msg : string)
| Println (s : string)
| Poll (at_ : Z)                            (* [select] on [ctx.Done()] with a [default] *)
| Sleep (d : Z)                             (* [time.NewTimer d] followed by the blocking [select] *)
| Cancelled (at_ : Z).                      (* the case [<-ctx.Done()] was taken *)

#[export] Instance Level_eq_dec : EqDecision Level.
Proof. solve_decision. Defined.
#[export] Instance Field_eq_dec : EqDecision Field.
Proof. solve_decision. Defined.
#[export] Instance Event_eq_dec : EqDecision Event.
Proof. solve_decision. Defined.

(** ** The environment

    One value of [Env] fixes what the world answers during one run of the
    process.  Readers are synchronous and have no effect on the program,
    so each is a value (or a function of its argument). *)

Record Env `{GopsutilTypes} : Type := {
  (* runtime *)
  runtime_GOOS : string;
  runtime_GOARCH : string;
  runtime_NumCPU : Z;
  runtime_Version : string;
  (* gopsutil *)
  cpu_Counts : Z * error;
  cpu_Info : list cpu_InfoStat * error;
  disk_Partitions : list disk_PartitionStat * error;
  disk_Usage : string -> option disk_UsageStat * error;
  disk_IOCounters : gmap string disk_IOCountersStat * error;
  host_Info : option host_InfoStat * error;
  mem_VirtualMemory : option mem_VirtualMemoryStat * error;
  mem_SwapDevices : list (option mem_SwapDevice) * error;
  mem_SwapMemory : option mem_SwapMemoryStat * error;
  sensors_SensorsTemperatures : list sensors_TemperatureStat * error;
  (* os, os/user, strconv, time, encoding/json *)
  os_Create : string -> error;
  os_Getenv : string -> string;
  user_Current : user_User + string;       (* [(u, nil)] or [(nil, err)] *)
  strconv_Atoi : string -> Z * error;
  Duration_String : Z -> string;
  json_Marshal : forall A : Type, A -> string * error;
  json_MarshalIndent : forall A : Type, A -> string * error;
  (* wall clock and cancellation *)
  elapse : nat -> N;            (* time that passes before the k-th look at the clock *)
  cancel_at : option Z;         (* instant at which [ctx] is cancelled, if ever *)
  select_done_first : bool      (* which ready case a [select] with two ready cases takes *)
}.

(** ** The effect monad: a clock threaded through, events written out *)

Record Clock : Type := { now : Z; reads : nat }.

Definition M (A : Type) : Type := Clock -> A * list Event * Clock.

Definition ret {A : Type} (a : A) : M A := fun c => (a, [], c).

Definition bind {A B : Type} (m : M A) (k : A -> M B) : M B := fun c =>
  let '(a, ev1, c1) := m c in
  let '(b, ev2, c2) := k a c1 in
  (b, ev1 ++ ev2, c2).

Declare Scope go_scope.
Delimit Scope go_scope with go.
Notation "x <- m ;; k" := (bind m (fun x => k))
  (at level 100, m at next level, right associativity) : go_scope.
#[warnings="-notation-incompatible-prefix"]
Notation "' p <- m ;; k" := (bind m (fun x => match x with p => k end))
  (at level 100, p pattern, m at next level, right associativity) : go_scope.
Notation "m ;; k" := (bind m (fun _ => k))
  (at level 100, right associativity) : go_scope.
Local Open Scope go_scope.

Definition emit (e : Event) : M unit := fun c => (tt, [e], c).

(** A call to a function outside the program: recorded, then answered. *)
Definition invoke {A : Type} (fn : string) (args : list string) (answer : A) : M A :=
  emit (Call fn args);; ret answer.

Definition result {A : Type} (r : A * list Event * Clock) : A := r.1.1.
Definition events {A : Type} (r : A * list Event * Clock) : list Event := r.1.2.
Definition clock_of {A : Type} (r : A * list Event * Clock) : Clock := r.2.

(** ** pkg/utils *)

Module utils.
Section utils.
Context `{GopsutilTypes} (os : Env).

(** [utils.Log.<Level>()...Msg(msg)] on the logger that [InitLogger] has
    set up: the line is written.  [Run] and, through it, [psutil.Info]
    only log after [InitLogger] has succeeded. *)
Definition Log_Msg (lvl : Level) (fields : list Field) (msg : string) : M unit :=
  emit (Log lvl fields msg).

(** [InitLogger]: the only failure is that of [os.Create]. *)
Definition InitLogger (logFile : string) (logToStdout : bool) : M error :=
  err <- invoke "os.Create" [logFile] (os_Create os logFile);;
  if err is Some _ then ret err
  else ret None.

(** The global [utils.Log] after [InitLogger logFile] has run: assigned
    (logger.go l.48) when [os.Create] succeeded, still the zero
    [zerolog.Logger] when [InitLogger] returned at l.21. *)
Definition opened (logFile : string) : bool :=
  if os_Create os logFile is Some _ then false else true.

(** [utils.Log.Fatal().Err(err).Msg(msg)], with [assigned] telling whether
    [utils.Log] has been assigned.  The process ends with status 1 either
    way; the zero [zerolog.Logger] has no writer and ends it without
    writing the line. *)
Definition Log_Fatal (assigned : bool) (fields : list Field) (msg : string) : M Z :=
  if assigned then emit (Log FatalLevel fields msg);; ret 1
  else ret 1.
End utils.
End utils.

(** ** pkg/psutil *)

Module psutil.
Section psutil.
Context `{GopsutilTypes} (os : Env).

Record GoInfo : Type := {
  GOOS : string;
  GOARCH : string;
  NumCPU : Z;
  Version : string
}.

Record PartitionUsage : Type := {
  Partition : disk_PartitionStat;
  Usage : option disk_UsageStat;
  UsageErr : error
}.

Record SysInfo : Type := {
  GoInfo_ : GoInfo;
  CPUCores : Z;
  CPUInfo : list cpu_InfoStat;
  IOCounters : gmap string disk_IOCountersStat;
  Partitions : list PartitionUsage;
  HostInfo : option host_InfoStat;
  MemInfo : option mem_VirtualMemoryStat;
  SwapDevices : list (option mem_SwapDevice);
  SwapInfo : option mem_SwapMemoryStat;
  SensorTemperatures : list sensors_TemperatureStat
}.

(** The inner loop of [Info]: [isNoBrowse] is set as soon as one option
    equals "nobrowse". *)
Fixpoint isNoBrowse (opts : list string) : bool :=
  match opts with
  | [] => false
  | opt :: rest => if String.eqb opt "nobrowse" then true else isNoBrowse rest
  end.

(** The loop over [parts]; [acc] is [info.Partitions]. *)
Fixpoint usage_loop (parts : list disk_PartitionStat) (acc : list PartitionUsage)
  : M (list PartitionUsage) :=
  match parts with
  | [] => ret acc
  | part :: rest =>
      if isNoBrowse (Opts part) then usage_loop rest acc
      else
        '(usage, err) <- invoke "disk.Usage" [Mountpoint part] (disk_Usage os (Mountpoint part));;
        let pu := {| Partition := part; Usage := usage; UsageErr := err |} in
        usage_loop rest (acc ++ [pu])
  end.

(** [Info] retrieves static system information. *)
Definition Info : M (option SysInfo * error) :=
  emit (Call "psutil.Info" []);;
  let goinfo := {| GOOS := runtime_GOOS os; GOARCH := runtime_GOARCH os;
                   NumCPU := runtime_NumCPU os; Version := runtime_Version os |} in
  '(counts, err) <- invoke "cpu.Counts" ["true"] (cpu_Counts os);;
  if err is Some _ then ret (None, err) else
  '(stats, err) <- invoke "cpu.Info" [] (cpu_Info os);;
  if err is Some _ then ret (None, err) else
  '(parts, err) <- invoke "disk.Partitions" ["true"] (disk_Partitions os);;
  if err is Some _ then ret (None, err) else
  partitions <- usage_loop parts [];;
  '(ioCounters, err) <- invoke "disk.IOCounters" [] (disk_IOCounters os);;
  if err is Some _ then ret (None, err) else
  '(hostInfo, err) <- invoke "host.Info" [] (host_Info os);;
  if err is Some _ then ret (None, err) else
  '(memInfo, err) <- invoke "mem.VirtualMemory" [] (mem_VirtualMemory os);;
  if err is Some _ then ret (None, err) else
  '(swapDevices, err) <- invoke "mem.SwapDevices" [] (mem_SwapDevices os);;
  swapDevices <- (if err is Some e
                 then utils.Log_Msg WarnLevel [Err e] "Failed to get swap devices";; ret []
                 else ret swapDevices);;
  '(swapInfo, err) <- invoke "mem.SwapMemory" [] (mem_SwapMemory os);;
  if err is Some _ then ret (None, err) else
  '(temps, err) <- invoke "sensors.SensorsTemperatures" [] (sensors_SensorsTemperatures os);;
  temps <- (if err is Some e
           then utils.Log_Msg WarnLevel [Err e] "Failed to get sensor temperatures";; ret []
           else ret temps);;
  ret (Some {| GoInfo_ := goinfo; CPUCores := counts; CPUInfo := stats;
                IOCounters := ioCounters; Partitions := partitions;
                HostInfo := hostInfo; MemInfo := memInfo;
                SwapDevices := swapDevices; SwapInfo := swapInfo;
                SensorTemperatures := temps |}, None).
End psutil.
End psutil.

(** ** pkg/system *)

Module system.
Section system.
Context `{GopsutilTypes} (os : Env).

(** [IsSudo] detects whether the process runs with sudo privileges. *)
Definition IsSudo : M bool :=
  sudoUser <- invoke "os.Getenv" ["SUDO_USER"] (os_Getenv os "SUDO_USER");;
  if negb (String.eqb sudoUser "") then ret true else
  r <- invoke "user.Current" [] (user_Current os);;
  match r with
  | inr _ => ret false
  | inl currentUser =>
      let '(uid, err) := strconv_Atoi os (Uid currentUser) in
      if err is Some _ then ret false else
      ret (uid =? 0)
  end.

Definition GetCurrentUser : M (user_User + string) :=
  invoke "user.Current" [] (user_Current os).

Definition GetSudoUser : M string :=
  invoke "os.Getenv" ["SUDO_USER"] (os_Getenv os "SUDO_USER").
End system.
End system.

(** ** pkg/core (app.go) *)

Module core.
Section core.
Context `{GopsutilTypes} (os : Env).

Record Config : Type := {
  Interval : Z;
  Duration : Z;
  LogFile : string;
  LogToStdout : bool
}.

Record App : Type := {
  name : string;
  config : Config
}.

Definition New (name : string) (config : Config) : App :=
  {| name := name; config := config |}.

(** The part of [Run] shared by both revisions: logger, privileges and
    the two opening log lines.  [Some err] is the early [return err]. *)
Definition startup (a : App) : M error :=
  err <- utils.InitLogger os (LogFile (config a)) (LogToStdout (config a));;
  if err is Some _ then ret err else
  isSudo <- system.IsSudo os;;
  r <- system.GetCurrentUser os;;
  let user := match r with
              | inl currentUser => Username currentUser
              | inr err => err
              end in
  '(user, msg) <- (if isSudo
                  then sudoUser <- system.GetSudoUser os;;
                       ret (if negb (String.eqb sudoUser "") then sudoUser else user,
                             "Running with sudo privileges")
                  else ret (user, "Running as regular user"));;
  utils.Log_Msg InfoLevel [Str "user" user; Bool "sudo" isSudo] msg;;
  utils.Log_Msg InfoLevel
        [Dur "interval" (Interval (config a)); Dur "duration" (Duration (config a))]
        "Collection interval and duration";;
  ret None.

(** [Run] starts the application. *)
Definition Run (a : App) : M error :=
  err <- startup a;;
  if err is Some _ then ret err else
  '(sysInfo, err) <- psutil.Info os;;
  if err is Some e
  then utils.Log_Msg ErrorLevel [Err e] "Failed to get system info";; ret None
  else
  let '(json, err) := json_MarshalIndent os _ sysInfo in
  if err is Some e
  then utils.Log_Msg ErrorLevel [Err e] "Failed to marshal system info to JSON";; ret None
  else
  emit (Println json);;
  ret None.
End core.
End core.

(** ** pkg/config *)

Module config.
Section config.
Context `{GopsutilTypes} (os : Env).

(** The flag variables after [flag.Parse]. *)
Record Flags : Type := {
  interval : Z;
  duration : Z;
  logFile : string;
  logToStdout : bool;
  help : bool
}.

Definition zero_Config : core.Config :=
  {| core.Interval := 0; core.Duration := 0; core.LogFile := ""; core.LogToStdout := false |}.

(** [ParseFlags], from the point where [flag.Parse] has filled the variables. *)
Definition ParseFlags (fl : Flags) : M (Outcome (core.Config * error)) :=
  if help fl then invoke "flag.Usage" [] tt;; ret (Exited 0) else
  if interval fl <=? 0
  then ret (Returned (zero_Config,
               Some ("interval must be positive, got " +:+ Duration_String os (interval fl))))
  else
  if duration fl <=? 0
  then ret (Returned (zero_Config,
               Some ("duration must be positive, got " +:+ Duration_String os (duration fl))))
  else
  ret (Returned ({| core.Interval := interval fl; core.Duration := duration fl;
                     core.LogFile := logFile fl; core.LogToStdout := logToStdout fl |}, None)).

(** [ParseFlags] from its first line.  [flag.Parse()] (l.90) parses the
    command line under the default [flag.ExitOnError] policy: a command
    line it rejects makes it call [flag.Usage] and end the process with
    status 2; [parsed] is [None] then, and the filled variables
    otherwise. *)
Definition ParseFlags_argv (parsed : option Flags) : M (Outcome (core.Config * error)) :=
  match parsed with
  | None => invoke "flag.Usage" [] tt;; ret (Exited 2)
  | Some fl => ParseFlags fl
  end.
End config.
End config.

(** ** main *)

Module main_.
Section main_.
Context `{GopsutilTypes} (os : Env).

(** The exit status of the process, from the point where [flag.Parse] has
    filled the variables.  A zerolog [Fatal] event ends the process with
    [os.Exit(1)]; returning from [main] is status 0.  At the first
    [Fatal] [InitLogger] has not been called, so [utils.Log] is the zero
    logger; at the second [Run] has called [InitLogger] on the log file of
    the configuration. *)
Definition main (fl : config.Flags) : M Z :=
  r <- config.ParseFlags os fl;;
  match r with
  | Exited code => ret code
  | Returned (cfg, err) =>
      if err is Some e
      then utils.Log_Fatal false [Err e] "Configuration error"
      else
      let app := core.New "tinytop" cfg in
      err <- core.Run os app;;
      if err is Some e
      then utils.Log_Fatal (utils.opened os (core.LogFile cfg)) [Err e] "Application error"
      else ret 0
  end.

(** The exit status of the process, from the command line: [parsed] is
    what [flag.Parse] makes of it (see [config.ParseFlags_argv]). *)
Definition main_argv (parsed : option config.Flags) : M Z :=
  r <- config.ParseFlags_argv os parsed;;
  match r with
  | Exited code => ret code
  | Returned (cfg, err) =>
      if err is Some e
      then utils.Log_Fatal false [Err e] "Configuration error"
      else
      let app := core.New "tinytop" cfg in
      err <- core.Run os app;;
      if err is Some e
      then utils.Log_Fatal (utils.opened os (core.LogFile cfg)) [Err e] "Application error"
      else ret 0
  end.
End main_.
End main_.

(** ** Clock, timer and cancellation context

    Time only moves when the program looks at the clock or blocks: the
    k-th look finds it [elapse os k] later than the previous one.  The
    context is done from the instant [cancel_at os] on.  The goroutine
    that turns a signal into [cancel()] runs beside the scheduler; of it
    only this instant is visible to [Run]. *)

Module time_.
Section time_.
Context `{GopsutilTypes} (os : Env).

Definition Now : M Z := fun c =>
  let t := now c + Z.of_N (elapse os (reads c)) in
  (t, [], {| now := t; reads := S (reads c) |}).

Definition advance_to (t : Z) : M unit := fun c =>
  (tt, [], {| now := Z.max (now c) t; reads := reads c |}).

Definition Done_ready (t : Z) : bool :=
  if cancel_at os is Some c then c <=? t else false.

(** [select { case <-ctx.Done(): return nil; default: }]; [true] when
    the first case is taken. *)
Definition poll_Done : M bool :=
  t <- Now;;
  emit (Poll t);;
  if Done_ready t then emit (Cancelled t);; ret true else ret false.

(** [timer := time.NewTimer(time.Until(currentTime))] and the blocking
    [select] between [ctx.Done()] and [timer.C]; [true] when
    [ctx.Done()] is taken.  A timer with a non-positive duration fires
    at once.  When both cases are ready at the same instant Go picks
    one of them at random: [select_done_first os].  The timer is due at
    [t + d]; the Go runtime keeps that instant in an int64 of its
    monotonic clock and saturates it at 2^63-1, so this is the timer of
    the code as long as [t + d] does not pass that limit. *)
Definition sleep_until (currentTime : Z) : M bool :=
  t <- Now;;
  let d := currentTime - t in
  emit (Sleep d);;
  let fire := t + Z.max d 0 in
  match cancel_at os with
  | None => advance_to fire;; ret false
  | Some c =>
      let done := Z.max t c in
      if (done <? fire) || ((done =? fire) && select_done_first os)
      then advance_to done;; emit (Cancelled done);; ret true
      else advance_to fire;; ret false
  end.
End time_.
End time_.

(** ** pkg/core, the revision with the tick loop (unnamed part_000)

    This revision logs host and CPU information once and then runs the
    interval/duration loop; the loop body holds the two cancellation
    checkpoints and the wait, and no collection. *)

Module core0.
Section core0.
Context `{GopsutilTypes} (os : Env).

(** [for i, cpuInfo := range cpuInfos] *)
Fixpoint log_cpuInfos (i : nat) (cpuInfos : list cpu_InfoStat) : M unit :=
  match cpuInfos with
  | [] => ret tt
  | cpuInfo :: rest =>
      let '(json, err) := json_Marshal os _ cpuInfo in
      (if err is Some e
           then utils.Log_Msg ErrorLevel [Err e]
                  ("Failed to marshal CPU " +:+ pretty i +:+ " info to JSON")
           else utils.Log_Msg InfoLevel [RawJSON "cpu_info" json]
                  ("CPU " +:+ pretty i +:+ " Information (JSON)"));;
      log_cpuInfos (S i) rest
  end.

Definition log_static_info : M unit :=
  '(info, err) <- invoke "host.Info" [] (host_Info os);;
  (if err is Some e
       then utils.Log_Msg ErrorLevel [Err e] "Failed to get host info"
       else
         let '(json, err) := json_Marshal os _ info in
         if err is Some e
         then utils.Log_Msg ErrorLevel [Err e] "Failed to marshal host info to JSON"
         else utils.Log_Msg InfoLevel [RawJSON "host_info" json] "Host Information (JSON)");;
  '(cpuInfos, err) <- invoke "cpu.Info" [] (cpu_Info os);;
  if err is Some e
  then utils.Log_Msg ErrorLevel [Err e] "Failed to get CPU info"
  else log_cpuInfos 0 cpuInfos.

(** [return err] inside a function that is run on fuel. *)
Definition return_ (err : error) : M (option error) := ret (Some err).

(** [for currentTime.Before(endTime) { ... }] followed by [return nil].
    [Some err] is the value [Run] returns; [None] means the fuel ran
    out before the loop ended. *)
Fixpoint tick_loop (fuel : nat) (interval endTime currentTime : Z) : M (option error) :=
  match fuel with
  | O => ret (None : option error)
  | S fuel' =>
      if currentTime <? endTime then
        cancelled <- time_.poll_Done os;;
        if cancelled then return_ None else
        let currentTime := currentTime + interval in
        stop <- (if endTime <? currentTime then ret true
                else t <- time_.Now os;; ret (endTime <? t) );;
        if stop then return_ None else
        cancelled <- time_.sleep_until os currentTime;;
        if cancelled then return_ None else
        tick_loop fuel' interval endTime currentTime
      else return_ None
  end.

(** [Run] starts the application. *)
Definition Run (fuel : nat) (a : core.App) : M (option error) :=
  err <- core.startup os a;;
  if err is Some _ then return_ err else
  log_static_info;;
  emit (Call "signal.Notify" ["os.Interrupt"; "syscall.SIGTERM"]);;
  t0 <- time_.Now os;;
  let endTime := t0 + core.Duration (core.config a) in
  currentTime <- time_.Now os;;
  tick_loop fuel (core.Interval (core.config a)) endTime currentTime.
End core0.
End core0.

(** * Specification vocabulary *)

Definition Millisecond : Z := 1000000.

(** The largest instant of the runtime's monotonic clock, an int64 of
    nanoseconds; a timer due later than this is kept at this instant. *)
Definition max_int64 : Z := 2 ^ 63 - 1.
Definition Second : Z := 1000 * Millisecond.

(** Events that are calls of the function [fn]. *)
Definition is_call (fn : string) (e : Event) : bool :=
  match e with
  | Call f _ => String.eqb f fn
  | _ => false
  end.

Definition calls (fn : string) (evs : list Event) : nat :=
  length (List.filter (is_call fn) evs).

(** One assembly pass is one call of [psutil.Info]. *)
Definition passes (evs : list Event) : nat := calls "psutil.Info" evs.

(** The mount points for which [disk.Usage] was queried, in order. *)
Fixpoint usage_queries (evs : list Event) : list string :=
  match evs with
  | [] => []
  | Call "disk.Usage" [mountpoint] :: rest => mountpoint :: usage_queries rest
  | _ :: rest => usage_queries rest
  end.

(** The instants of the cancellation checkpoints at the head of the loop. *)
Fixpoint polls (evs : list Event) : list Z :=
  match evs with
  | [] => []
  | Poll t :: rest => t :: polls rest
  | _ :: rest => polls rest
  end.

(** Events of the scheduling loop. *)
Definition is_tick (e : Event) : bool :=
  match e with
  | Poll _ | Sleep _ | Cancelled _ => true
  | _ => false
  end.

(** What [core.startup] may leave in the trace. *)
Definition is_startup_event (e : Event) : bool :=
  match e with
  | Call fn _ => bool_decide (fn ∈ ["os.Create"; "os.Getenv"; "user.Current"])
  | Log InfoLevel _ _ => true
  | _ => false
  end.

(** What [core0.log_static_info] may leave in the trace. *)
Definition is_static_event (e : Event) : bool :=
  match e with
  | Call fn _ => bool_decide (fn ∈ ["host.Info"; "cpu.Info"])
  | Log (InfoLevel | ErrorLevel) _ _ => true
  | _ => false
  end.

Definition is_cancelled (e : Event) : bool :=
  match e with
  | Cancelled _ => true
  | _ => false
  end.

(** A partition carries the "exclude from browsing" marker. *)
Definition nobrowse (part : disk_PartitionStat) : Prop := "nobrowse" ∈ Opts part.

#[export] Instance nobrowse_dec part : Decision (nobrowse part).
Proof. unfold nobrowse. apply _. Defined.

(** The subsystems the specification lists as mandatory, in the order in
    which [Info] reads them. *)
Inductive Mandatory : Type :=
| CpuCoreCount | CpuInfo | DiskPartitions | DiskIOCounters | HostIdentity | VirtualMemory.

Definition rank (m : Mandatory) : nat :=
  match m with
  | CpuCoreCount => 0 | CpuInfo => 1 | DiskPartitions => 2
  | DiskIOCounters => 3 | HostIdentity => 4 | VirtualMemory => 5
  end%nat.

Definition loop_shape (r : option error) (evs : list Event) : Prop :=
  Forall (λ e, is_tick e = true) evs /\
  (Forall (λ e, is_cancelled e = false) evs \/
   exists pre t, evs = pre ++ [Cancelled t] /\
                 Forall (λ e, is_cancelled e = false) pre /\ r = Some None).

(** The log lines of a trace, and the documents printed on standard
    output. *)
Definition is_log (e : Event) : bool :=
  match e with
  | Log _ _ _ => true
  | _ => false
  end.

Definition logs (evs : list Event) : list Event := List.filter is_log evs.

Fixpoint printed (evs : list Event) : list string :=
  match evs with
  | [] => []
  | Println s :: rest => s :: printed rest
  | _ :: rest => printed rest
  end.

Definition sleeps (evs : list Event) : nat := length (List.filter
  (fun e => match e with Sleep _ => true | _ => false end) evs).

Section vocabulary.
Context `{GopsutilTypes} (os : Env).

Definition reader_err (m : Mandatory) : error :=
  match m with
  | CpuCoreCount => (cpu_Counts os).2
  | CpuInfo => (cpu_Info os).2
  | DiskPartitions => (disk_Partitions os).2
  | DiskIOCounters => (disk_IOCounters os).2
  | HostIdentity => (host_Info os).2
  | VirtualMemory => (mem_VirtualMemory os).2
  end.

(** The call by which [Info] consults the reader of a subsystem. *)
Definition reader_call (m : Mandatory) : Event :=
  match m with
  | CpuCoreCount => Call "cpu.Counts" ["true"]
  | CpuInfo => Call "cpu.Info" []
  | DiskPartitions => Call "disk.Partitions" ["true"]
  | DiskIOCounters => Call "disk.IOCounters" []
  | HostIdentity => Call "host.Info" []
  | VirtualMemory => Call "mem.VirtualMemory" []
  end.

(** Every reader whose failure makes [Info] return an error succeeds. *)
Definition readers_ok : Prop :=
  (forall m, reader_err m = None) /\ (mem_SwapMemory os).2 = None.

(** The entry [Info] builds for a partition it queries. *)
Definition usage_entry (part : disk_PartitionStat) : psutil.PartitionUsage :=
  {| psutil.Partition := part;
     psutil.Usage := (disk_Usage os (Mountpoint part)).1;
     psutil.UsageErr := (disk_Usage os (Mountpoint part)).2 |}.

(** Fuel that lets the tick loop of a configuration run to its end. *)
Definition fuel_for (cfg : core.Config) : nat :=
  S (Z.to_nat (core.Duration cfg / core.Interval cfg + 1)).
End vocabulary.

(** * Concrete environments *)

#[local] Instance demo_types : GopsutilTypes :=
  {| cpu_InfoStat := string; disk_UsageStat := Z; disk_IOCountersStat := Z;
     host_InfoStat := string; mem_VirtualMemoryStat := Z; mem_SwapDevice := string;
     mem_SwapMemoryStat := Z; sensors_TemperatureStat := Z |}.

Definition root_part : disk_PartitionStat :=
  {| Device := "/dev/sda1"; Mountpoint := "/"; Fstype := "ext4"; Opts := ["rw"] |}.
Definition vm_part : disk_PartitionStat :=
  {| Device := "/dev/disk1s4"; Mountpoint := "/System/Volumes/VM"; Fstype := "apfs";
     Opts := ["rw"; "nobrowse"] |}.
Definition usb_part : disk_PartitionStat :=
  {| Device := "/dev/sdb1"; Mountpoint := "/mnt/usb"; Fstype := "vfat"; Opts := ["ro"] |}.

(** A healthy host with three partitions, one hidden from browsing and one
    whose usage cannot be read, and no swap devices. *)
Definition demo_env : @Env demo_types :=
  {| runtime_GOOS := "linux"; runtime_GOARCH := "amd64";
     runtime_NumCPU := 4; runtime_Version := "go1.22";
     cpu_Counts := (4, None);
     cpu_Info := (["cpu0"], None);
     disk_Partitions := ([root_part; vm_part; usb_part], None);
     disk_Usage := fun mp => if String.eqb mp "/mnt/usb"
                             then (None, Some "permission denied") else (Some 42, None);
     disk_IOCounters := (∅, None);
     host_Info := (Some "host", None);
     mem_VirtualMemory := (Some 1024, None);
     mem_SwapDevices := ([], Some "no swap");
     mem_SwapMemory := (Some 0, None);
     sensors_SensorsTemperatures := ([], None);
     os_Create := fun _ => None;
     os_Getenv := fun _ => "";
     user_Current := inl {| Uid := "1000"; Username := "alice" |};
     strconv_Atoi := fun _ => (1000, None);
     Duration_String := fun _ => "0s";
     json_Marshal := fun _ _ => ("{}", None);
     json_MarshalIndent := fun _ _ => ("{}", None);
     elapse := fun _ => 0%N;
     cancel_at := None;
     select_done_first := true |}.

(** [demo_env] with one answer replaced. *)
Definition with_swap_memory (r : option Z * error) (os : @Env demo_types) : @Env demo_types :=
  {| runtime_GOOS := runtime_GOOS os; runtime_GOARCH := runtime_GOARCH os;
     runtime_NumCPU := runtime_NumCPU os; runtime_Version := runtime_Version os;
     cpu_Counts := cpu_Counts os; cpu_Info := cpu_Info os;
     disk_Partitions := disk_Partitions os; disk_Usage := disk_Usage os;
     disk_IOCounters := disk_IOCounters os; host_Info := host_Info os;
     mem_VirtualMemory := mem_VirtualMemory os; mem_SwapDevices := mem_SwapDevices os;
     mem_SwapMemory := r;
     sensors_SensorsTemperatures := sensors_SensorsTemperatures os;
     os_Create := os_Create os; os_Getenv := os_Getenv os; user_Current := user_Current os;
     strconv_Atoi := strconv_Atoi os; Duration_String := Duration_String os;
     json_Marshal := json_Marshal os; json_MarshalIndent := json_MarshalIndent os;
     elapse := elapse os; cancel_at := cancel_at os;
     select_done_first := select_done_first os |}.

Definition with_virtual_memory (r : option Z * error) (os : @Env demo_types) : @Env demo_types :=
  {| runtime_GOOS := runtime_GOOS os; runtime_GOARCH := runtime_GOARCH os;
     runtime_NumCPU := runtime_NumCPU os; runtime_Version := runtime_Version os;
     cpu_Counts := cpu_Counts os; cpu_Info := cpu_Info os;
     disk_Partitions := disk_Partitions os; disk_Usage := disk_Usage os;
     disk_IOCounters := disk_IOCounters os; host_Info := host_Info os;
     mem_VirtualMemory := r; mem_SwapDevices := mem_SwapDevices os;
     mem_SwapMemory := mem_SwapMemory os;
     sensors_SensorsTemperatures := sensors_SensorsTemperatures os;
     os_Create := os_Create os; os_Getenv := os_Getenv os; user_Current := user_Current os;
     strconv_Atoi := strconv_Atoi os; Duration_String := Duration_String os;
     json_Marshal := json_Marshal os; json_MarshalIndent := json_MarshalIndent os;
     elapse := elapse os; cancel_at := cancel_at os;
     select_done_first := select_done_first os |}.

Definition with_cancel (at_ : option Z) (os : @Env demo_types) : @Env demo_types :=
  {| runtime_GOOS := runtime_GOOS os; runtime_GOARCH := runtime_GOARCH os;
     runtime_NumCPU := runtime_NumCPU os; runtime_Version := runtime_Version os;
     cpu_Counts := cpu_Counts os; cpu_Info := cpu_Info os;
     disk_Partitions := disk_Partitions os; disk_Usage := disk_Usage os;
     disk_IOCounters := disk_IOCounters os; host_Info := host_Info os;
     mem_VirtualMemory := mem_VirtualMemory os; mem_SwapDevices := mem_SwapDevices os;
     mem_SwapMemory := mem_SwapMemory os;
     sensors_SensorsTemperatures := sensors_SensorsTemperatures os;
     os_Create := os_Create os; os_Getenv := os_Getenv os; user_Current := user_Current os;
     strconv_Atoi := strconv_Atoi os; Duration_String := Duration_String os;
     json_Marshal := json_Marshal os; json_MarshalIndent := json_MarshalIndent os;
     elapse := elapse os; cancel_at := at_;
     select_done_first := select_done_first os |}.

Definition swap_failure_env : @Env demo_types :=
  with_swap_memory (None, Some "swap: not supported") demo_env.

Definition memory_failure_env : @Env demo_types :=
  with_virtual_memory (None, Some "sysctl failed") demo_env.

(** Cancellation 50ms into the run (scenario C of the specification). *)
Definition interrupted_env : @Env demo_types :=
  with_cancel (Some (50 * Millisecond)) demo_env.

Definition clock0 : Clock := {| now := 0; reads := 0 |}.

Definition config_A : core.Config :=
  {| core.Interval := 100 * Millisecond; core.Duration := 350 * Millisecond;
     core.LogFile := "tinytop.log"; core.LogToStdout := false |}.

Definition config_B : core.Config :=
  {| core.Interval := Second; core.Duration := Second;
     core.LogFile := "tinytop.log"; core.LogToStdout := false |}.

Definition config_C : core.Config :=
  {| core.Interval := Second; core.Duration := 10 * Second;
     core.LogFile := "tinytop.log"; core.LogToStdout := false |}.

Definition flags_A : config.Flags :=
  {| config.interval := 100 * Millisecond; config.duration := 350 * Millisecond;
     config.logFile := "tinytop.log"; config.logToStdout := false; config.help := false |}.

Definition flags_zero_interval : config.Flags :=
  {| config.interval := 0; config.duration := Second;
     config.logFile := "tinytop.log"; config.logToStdout := false; config.help := false |}.

Definition flags_help_zero_interval : config.Flags :=
  {| config.interval := 0; config.duration := Second;
     config.logFile := "tinytop.log"; config.logToStdout := false; config.help := true |}.

Definition with_host (create : string -> error) (getenv : string -> string)
    (user : user_User + string) (atoi : string -> Z * error)
    (os : @Env demo_types) : @Env demo_types :=
  {| runtime_GOOS := runtime_GOOS os; runtime_GOARCH := runtime_GOARCH os;
     runtime_NumCPU := runtime_NumCPU os; runtime_Version := runtime_Version os;
     cpu_Counts := cpu_Counts os; cpu_Info := cpu_Info os;
     disk_Partitions := disk_Partitions os; disk_Usage := disk_Usage os;
     disk_IOCounters := disk_IOCounters os; host_Info := host_Info os;
     mem_VirtualMemory := mem_VirtualMemory os; mem_SwapDevices := mem_SwapDevices os;
     mem_SwapMemory := mem_SwapMemory os;
     sensors_SensorsTemperatures := sensors_SensorsTemperatures os;
     os_Create := create; os_Getenv := getenv; user_Current := user;
     strconv_Atoi := atoi; Duration_String := Duration_String os;
     json_Marshal := json_Marshal os; json_MarshalIndent := json_MarshalIndent os;
     elapse := elapse os; cancel_at := cancel_at os;
     select_done_first := select_done_first os |}.

(** [sudo tinytop] started by alice: the process is root, SUDO_USER is alice. *)
Definition sudo_env : @Env demo_types :=
  with_host (fun _ => None)
    (fun k => if String.eqb k "SUDO_USER" then "alice" else "")
    (inl {| Uid := "0"; Username := "root" |})
    (fun _ => (0, None)) demo_env.

(** A host on which the log file cannot be created. *)
Definition readonly_env : @Env demo_types :=
  with_host (fun _ => Some "open tinytop.log: read-only file system")
    (fun _ => "") (inl {| Uid := "1000"; Username := "alice" |})
    (fun _ => (1000, None)) demo_env.

(** The interrupt is already pending when the run starts. *)
Definition cancelled_env : @Env demo_types := with_cancel (Some 0) demo_env.

(** Two processors, an unreadable host, and an encoder that rejects every
    value. *)
Definition two_cpu_env : @Env demo_types :=
  {| runtime_GOOS := runtime_GOOS demo_env; runtime_GOARCH := runtime_GOARCH demo_env;
     runtime_NumCPU := runtime_NumCPU demo_env; runtime_Version := runtime_Version demo_env;
     cpu_Counts := cpu_Counts demo_env; cpu_Info := (["cpu0"; "cpu1"], None);
     disk_Partitions := disk_Partitions demo_env; disk_Usage := disk_Usage demo_env;
     disk_IOCounters := disk_IOCounters demo_env; host_Info := (None, Some "no host");
     mem_VirtualMemory := mem_VirtualMemory demo_env;
     mem_SwapDevices := mem_SwapDevices demo_env;
     mem_SwapMemory := mem_SwapMemory demo_env;
     sensors_SensorsTemperatures := sensors_SensorsTemperatures demo_env;
     os_Create := os_Create demo_env; os_Getenv := os_Getenv demo_env;
     user_Current := user_Current demo_env;
     strconv_Atoi := strconv_Atoi demo_env; Duration_String := Duration_String demo_env;
     json_Marshal := fun _ _ => ("", Some "unsupported value");
     json_MarshalIndent := json_MarshalIndent demo_env;
     elapse := elapse demo_env; cancel_at := cancel_at demo_env;
     select_done_first := select_done_first demo_env |}.


(** * Properties *)

(** Unfolds the monad so that a computation becomes its triple. *)
Ltac run_go :=
  cbv [bind ret emit invoke utils.Log_Msg utils.InitLogger utils.Log_Fatal utils.opened] in *;
  cbn [fst snd] in *.

Section trace_facts.
Lemma result_mk {A : Type} (a : A) evs c : result (a, evs, c) = a.
Proof. done. Qed.

Lemma events_mk {A : Type} (a : A) evs c : events (a, evs, c) = evs.
Proof. done. Qed.

Lemma clock_of_mk {A : Type} (a : A) evs c : clock_of (a, evs, c) = c.
Proof. done. Qed.

Lemma calls_app fn (xs ys : list Event) :
  calls fn (xs ++ ys) = (calls fn xs + calls fn ys)%nat.
Proof. unfold calls. by rewrite List.filter_app, length_app. Qed.

Lemma calls_cons fn e (xs : list Event) :
  calls fn (e :: xs) = ((if is_call fn e then 1 else 0) + calls fn xs)%nat.
Proof. unfold calls. cbn. by destruct (is_call fn e). Qed.

Lemma usage_queries_app (xs ys : list Event) :
  usage_queries (xs ++ ys) = usage_queries xs ++ usage_queries ys.
Proof.
  induction xs as [|e xs IH]; [done|].
  destruct e as [fn args| | | | |]; cbn; try done.
  repeat (case_match; try done); cbn; by rewrite IH.
Qed.

Lemma polls_app (xs ys : list Event) : polls (xs ++ ys) = polls xs ++ polls ys.
Proof.
  induction xs as [|e xs IH]; [done|].
  destruct e; cbn; by rewrite ?IH.
Qed.
End trace_facts.

Section psutil_facts.
Context `{GopsutilTypes} (os : Env).

Lemma isNoBrowse_spec (opts : list string) :
  psutil.isNoBrowse opts = true <-> "nobrowse" ∈ opts.
Proof.
  induction opts as [|opt rest IH]; cbn.
  - split; [done | by intros ?%elem_of_nil].
  - destruct (String.eqb_spec opt "nobrowse") as [->|Hne].
    + split; [intros _; left | done].
    + rewrite IH, elem_of_cons. split; [by right | by intros [?|?]].
Qed.

Lemma isNoBrowse_false (part : disk_PartitionStat) :
  psutil.isNoBrowse (Opts part) = false <-> ¬ nobrowse part.
Proof.
  unfold nobrowse. rewrite <- isNoBrowse_spec.
  destruct (psutil.isNoBrowse (Opts part)); naive_solver.
Qed.

(** The partition loop keeps exactly the partitions without the marker,
    queries usage for exactly those, and never stops early. *)
Lemma usage_loop_spec (parts : list disk_PartitionStat) acc c :
  psutil.usage_loop os parts acc c =
    (acc ++ (usage_entry os <$> filter (λ p, ¬ nobrowse p) parts),
     (λ p, Call "disk.Usage" [Mountpoint p]) <$> filter (λ p, ¬ nobrowse p) parts,
     c).
Proof.
  revert acc. induction parts as [|part rest IH]; intros acc.
  - cbn. by rewrite app_nil_r.
  - destruct (decide (nobrowse part)) as [Hnb|Hnb].
    + rewrite filter_cons_False by tauto.
      cbn [psutil.usage_loop]. apply isNoBrowse_spec in Hnb. rewrite Hnb. apply IH.
    + rewrite filter_cons_True by done.
      cbn [psutil.usage_loop]. apply isNoBrowse_false in Hnb. rewrite Hnb.
      run_go. destruct (disk_Usage os (Mountpoint part)) as [usage err] eqn:Hu.
      rewrite IH. rewrite !fmap_cons. unfold usage_entry at 2. rewrite Hu. cbn.
      by rewrite <- app_assoc.
Qed.
End psutil_facts.

(** Case analysis on the answers of the readers, in the order in which
    [Info] consults them. *)
Ltac info_cases os :=
  unfold psutil.Info; run_go;
  destruct (cpu_Counts os) as [counts [e1|]] eqn:Ecounts; cbn;
  [|destruct (cpu_Info os) as [stats [e2|]] eqn:Estats; cbn;
  [|destruct (disk_Partitions os) as [parts [e3|]] eqn:Eparts; cbn;
  [|rewrite !usage_loop_spec; cbn;
    destruct (disk_IOCounters os) as [ioCounters [e4|]] eqn:Eio; cbn;
  [|destruct (host_Info os) as [hostInfo [e5|]] eqn:Ehost; cbn;
  [|destruct (mem_VirtualMemory os) as [memInfo [e6|]] eqn:Emem; cbn;
  [|destruct (mem_SwapDevices os) as [swapDevices [e7|]] eqn:Eswapdev; cbn;
    (destruct (mem_SwapMemory os) as [swapInfo [e8|]] eqn:Eswap; cbn;
  [|destruct (sensors_SensorsTemperatures os) as [temps [e9|]] eqn:Etemps; cbn])]]]]]].

Section assembler.
Context `{GopsutilTypes} (os : Env).

(** [Info] does not look at the clock. *)
Lemma Info_clock c : clock_of (psutil.Info os c) = c.
Proof. unfold clock_of. info_cases os; done. Qed.

Lemma Info_any_clock c c' :
  result (psutil.Info os c) = result (psutil.Info os c') /\
  events (psutil.Info os c) = events (psutil.Info os c').
Proof. unfold result, events. info_cases os; done. Qed.

(** [Info] returns a snapshot or an error, never both and never neither. *)
Lemma Info_snapshot_xor_error c :
  (exists info, result (psutil.Info os c) = (Some info, None)) \/
  (exists e, result (psutil.Info os c) = (None, Some e)).
Proof. unfold result. info_cases os; eauto. Qed.

(** One call of [Info] is one pass: none of the calls it makes is a call
    of [Info]. *)
Lemma usage_calls_not_Info (parts : list disk_PartitionStat) :
  passes ((λ p, Call "disk.Usage" [Mountpoint p]) <$> parts) = 0%nat.
Proof. induction parts as [|p parts IH]; [done|]. apply IH. Qed.

Lemma Info_one_pass c : passes (events (psutil.Info os c)) = 1%nat.
Proof.
  pose proof usage_calls_not_Info as Hu. unfold passes, calls in Hu.
  unfold events, passes, calls. info_cases os; try done.
  all: by rewrite List.filter_app, length_app, Hu.
Qed.

(** [Info] starts no timer and reaches no cancellation checkpoint. *)
Lemma Info_no_tick c : Forall (λ e, is_tick e = false) (events (psutil.Info os c)).
Proof.
  assert (Hu : forall parts : list disk_PartitionStat,
    Forall (λ e, is_tick e = false) ((λ p, Call "disk.Usage" [Mountpoint p]) <$> parts)).
  { intros parts. apply Forall_fmap, Forall_forall. done. }
  unfold events. info_cases os; repeat first [done | constructor | apply Forall_app].
Qed.

(** C2.  Whenever the reader of one of the six mandatory subsystems (CPU
    core count, CPU info, disk partitions, disk IO counters, host
    identity, virtual memory) fails, [Info] returns a nil snapshot
    together with an error; when no reader consulted before it has
    failed, that error is the error of this reader. *)
Theorem Info_mandatory_failure (m : Mandatory) (e : string) c :
  reader_err os m = Some e ->
  (result (psutil.Info os c)).1 = None /\
  (exists e', (result (psutil.Info os c)).2 = Some e') /\
  ((forall m', (rank m' < rank m)%nat -> reader_err os m' = None) ->
   result (psutil.Info os c) = (None, Some e)).
Proof.
  intros Hm. unfold result.
  assert (Hrank : forall m', (rank m' < rank m)%nat ->
            (forall m', (rank m' < rank m)%nat -> reader_err os m' = None) ->
            reader_err os m' = None) by auto.
  pose proof (Hrank CpuCoreCount) as H0. pose proof (Hrank CpuInfo) as H1.
  pose proof (Hrank DiskPartitions) as H2. pose proof (Hrank DiskIOCounters) as H3.
  pose proof (Hrank HostIdentity) as H4. pose proof (Hrank VirtualMemory) as H5.
  clear Hrank.
  destruct m; cbn in *; info_cases os; cbn in *; simplify_eq;
    (split; [done|]); (split; [eauto|]); intros Hfirst;
    first [done
          | by (discriminate (H0 ltac:(lia) Hfirst))
          | by (discriminate (H1 ltac:(lia) Hfirst))
          | by (discriminate (H2 ltac:(lia) Hfirst))
          | by (discriminate (H3 ltac:(lia) Hfirst))
          | by (discriminate (H4 ltac:(lia) Hfirst))
          | by (discriminate (H5 ltac:(lia) Hfirst)) ].
Qed.

Lemma usage_queries_of_calls (parts : list disk_PartitionStat) :
  usage_queries ((λ p, Call "disk.Usage" [Mountpoint p]) <$> parts) = Mountpoint <$> parts.
Proof. induction parts as [|p parts IH]; [done|]. cbn. by rewrite IH. Qed.

(** The usage queries of a pass: none when the pass stops before the
    partition loop, otherwise one per partition without the marker. *)
Lemma Info_usage_queries c :
  usage_queries (events (psutil.Info os c)) = [] \/
  usage_queries (events (psutil.Info os c)) =
    Mountpoint <$> filter (λ p, ¬ nobrowse p) (disk_Partitions os).1.
Proof.
  unfold events.
  info_cases os; [by left..|idtac|idtac|idtac|idtac|idtac|idtac|idtac|idtac|idtac].
  all: right; rewrite ?usage_queries_app, ?usage_queries_of_calls; cbn; apply app_nil_r.
Qed.

(** The partition list of a snapshot. *)
Lemma Info_Partitions c info :
  (result (psutil.Info os c)).1 = Some info ->
  psutil.Partitions info =
    usage_entry os <$> filter (λ p, ¬ nobrowse p) (disk_Partitions os).1.
Proof. unfold result. info_cases os; intros; by simplify_eq. Qed.

(** [Info] succeeds exactly when the seven readers it insists on succeed;
    the usage queries, the swap devices and the sensors play no part. *)
Lemma Info_succeeds c :
  readers_ok os -> exists info, result (psutil.Info os c) = (Some info, None).
Proof.
  intros [Hm Hswap].
  pose proof (Hm CpuCoreCount) as H0. pose proof (Hm CpuInfo) as H1.
  pose proof (Hm DiskPartitions) as H2. pose proof (Hm DiskIOCounters) as H3.
  pose proof (Hm HostIdentity) as H4. pose proof (Hm VirtualMemory) as H5.
  clear Hm. cbn in *. unfold result.
  info_cases os; cbn in *; simplify_eq; eauto.
Qed.

(** C1 (amended).  A failure of the swap-memory reader is handled like
    that of a mandatory subsystem: [Info] returns a nil snapshot, and
    when the six readers before it succeeded it returns the reader's
    error and logs no warning about it (the only warning a pass can have
    logged by then is the one about swap devices). *)
Theorem Info_swap_memory_failure_aborts (e : string) c :
  (mem_SwapMemory os).2 = Some e ->
  (result (psutil.Info os c)).1 = None /\
  ((forall m, reader_err os m = None) ->
   result (psutil.Info os c) = (None, Some e) /\
   forall lvl fields msg, Log lvl fields msg ∈ events (psutil.Info os c) ->
     lvl = WarnLevel /\ msg = "Failed to get swap devices").
Proof.
  intros Hswap.
  assert (Hlog : forall (parts : list disk_PartitionStat) lvl fields msg,
    Log lvl fields msg ∉ (λ p, Call "disk.Usage" [Mountpoint p]) <$> parts).
  { intros parts lvl fields msg (p & Hp & _)%list_elem_of_fmap. done. }
  split.
  - unfold result. info_cases os; cbn in *; by simplify_eq.
  - intros Hm.
    pose proof (Hm CpuCoreCount) as H0. pose proof (Hm CpuInfo) as H1.
    pose proof (Hm DiskPartitions) as H2. pose proof (Hm DiskIOCounters) as H3.
    pose proof (Hm HostIdentity) as H4. pose proof (Hm VirtualMemory) as H5.
    clear Hm. cbn in *. unfold result, events.
    info_cases os; cbn in *; simplify_eq; (split; [done|]).
    all: intros lvl fields msg Hin.
    all: repeat (apply elem_of_cons in Hin as [Hin|Hin]; [by simplify_eq|]).
    all: apply elem_of_app in Hin as [Hin|Hin]; [by apply Hlog in Hin|].
    all: repeat (apply elem_of_cons in Hin as [Hin|Hin]; [by simplify_eq|]).
    all: by apply elem_of_nil in Hin.
Qed.

(** C5.  A partition returned by the partitions reader whose options
    include "nobrowse" is passed over before [disk.Usage] is called: it
    is the partition of no entry of the snapshot, whatever its usage
    query would have answered; the usage queries of the pass are those
    of the partitions without the marker and no others, so its mount
    point is queried only if a partition without the marker shares it. *)
Theorem Info_skips_nobrowse (part : disk_PartitionStat) c :
  part ∈ (disk_Partitions os).1 ->
  nobrowse part ->
  (forall info, (result (psutil.Info os c)).1 = Some info ->
     forall pu, pu ∈ psutil.Partitions info -> psutil.Partition pu ≠ part) /\
  (usage_queries (events (psutil.Info os c)) = [] \/
   usage_queries (events (psutil.Info os c)) =
     Mountpoint <$> filter (λ p, ¬ nobrowse p) (disk_Partitions os).1) /\
  ((forall q, q ∈ (disk_Partitions os).1 -> Mountpoint q = Mountpoint part -> nobrowse q) ->
   Mountpoint part ∉ usage_queries (events (psutil.Info os c))).
Proof.
  intros Hin Hnb. split; [|split].
  - intros info Hinfo pu Hpu Heq.
    rewrite (Info_Partitions _ _ Hinfo) in Hpu.
    apply list_elem_of_fmap in Hpu as (q & -> & Hq).
    apply list_elem_of_filter in Hq as [Hq _]. cbn in Heq. by subst q.
  - apply Info_usage_queries.
  - intros Hshared Hquery.
    destruct (Info_usage_queries c) as [Hq|Hq]; rewrite Hq in Hquery.
    + by apply elem_of_nil in Hquery.
    + apply list_elem_of_fmap in Hquery as (q & Hmp & Hq').
      apply list_elem_of_filter in Hq' as [Hq' Hq''].
      apply Hq'. by apply Hshared.
Qed.

(** C6.  A failing usage query does not make the pass fail: when the
    readers [Info] insists on succeed, it returns a snapshot and a nil
    error; the partition whose query failed has its entry in the
    snapshot, with the error in [UsageErr]; and the partition list holds
    one entry for every partition without the marker, in the order of
    the reader, so the partitions after the failing one are processed as
    well. *)
Theorem Info_usage_failure_recorded (part : disk_PartitionStat) (e : string) c :
  readers_ok os ->
  part ∈ (disk_Partitions os).1 ->
  ¬ nobrowse part ->
  (disk_Usage os (Mountpoint part)).2 = Some e ->
  exists info,
    result (psutil.Info os c) = (Some info, None) /\
    {| psutil.Partition := part;
       psutil.Usage := (disk_Usage os (Mountpoint part)).1;
       psutil.UsageErr := Some e |} ∈ psutil.Partitions info /\
    psutil.Partitions info =
      usage_entry os <$> filter (λ p, ¬ nobrowse p) (disk_Partitions os).1 /\
    usage_queries (events (psutil.Info os c)) =
      Mountpoint <$> filter (λ p, ¬ nobrowse p) (disk_Partitions os).1.
Proof.
  intros Hok Hin Hnb Herr.
  destruct (Info_succeeds c Hok) as [info Hinfo].
  exists info. split; [done|].
  assert (Hparts := Info_Partitions c info). rewrite Hinfo in Hparts.
  specialize (Hparts eq_refl). split; [|split; [done|]].
  - rewrite Hparts, <- Herr. apply list_elem_of_fmap.
    exists part. split; [done|]. by apply list_elem_of_filter.
  - revert Hinfo. unfold result, events.
    info_cases os; intros; simplify_eq.
    all: rewrite ?usage_queries_app, ?usage_queries_of_calls; cbn; apply app_nil_r.
Qed.
End assembler.

Section scheduler.
Context `{GopsutilTypes} (os : Env).

Lemma startup_spec a c :
  result (core.startup os a c) = os_Create os (core.LogFile (core.config a)) /\
  clock_of (core.startup os a c) = c /\
  Forall (λ e, is_startup_event e = true) (events (core.startup os a c)).
Proof.
  unfold result, clock_of, events, core.startup, system.IsSudo, system.GetCurrentUser,
    system.GetSudoUser. run_go.
  repeat (case_match; cbn; simplify_eq); repeat split; try done.
  all: repeat constructor.
Qed.

Lemma InitLogger_result logFile logToStdout c :
  result (utils.InitLogger os logFile logToStdout c) = os_Create os logFile.
Proof. unfold result. run_go. by destruct (os_Create os logFile). Qed.

Lemma startup_events_calls fn (evs : list Event) :
  bool_decide (fn ∈ ["os.Create"; "os.Getenv"; "user.Current"]) = false ->
  Forall (λ e, is_startup_event e = true) evs -> calls fn evs = 0%nat.
Proof.
  intros Hfn. induction 1 as [|e evs He _ IH]; [done|].
  rewrite calls_cons, IH. destruct e as [f args| | | | |]; try done.
  cbn in *. destruct (String.eqb_spec f fn) as [->|]; [congruence|done].
Qed.

Lemma startup_events_no_tick (evs : list Event) :
  Forall (λ e, is_startup_event e = true) evs -> Forall (λ e, is_tick e = false) evs.
Proof. intros Hst. eapply Forall_impl; [done|]. by intros []. Qed.

(** [Run] of app.go, case by case: the logger cannot be opened; the pass
    fails; the snapshot cannot be encoded; the snapshot is printed. *)
Lemma Run_unfold a c :
  core.Run os a c =
    match os_Create os (core.LogFile (core.config a)) with
    | Some e => (Some e, events (core.startup os a c), c)
    | None =>
        (None,
         events (core.startup os a c) ++ events (psutil.Info os c) ++
         match result (psutil.Info os c) with
         | (_, Some e) => [Log ErrorLevel [Err e] "Failed to get system info"]
         | (sysInfo, None) =>
             match json_MarshalIndent os _ sysInfo with
             | (_, Some e) => [Log ErrorLevel [Err e] "Failed to marshal system info to JSON"]
             | (json, None) => [Println json]
             end
         end,
         c)
    end.
Proof.
  destruct (startup_spec a c) as (Hres & Hclock & _).
  unfold core.Run, bind, result, clock_of, events in *.
  destruct (core.startup os a c) as [[err evs] c1]. cbn [fst snd] in *. subst c1 err.
  destruct (os_Create os _) as [e|].
  - cbv [ret]. by rewrite app_nil_r.
  - pose proof (Info_clock os c) as Hic. unfold clock_of in Hic.
    destruct (psutil.Info os c) as [[[sysInfo [e|]] ievs] c2]; cbn [fst snd] in *; subst c2.
    + run_go. by rewrite app_nil_r.
    + destruct (json_MarshalIndent os _ sysInfo) as [json [e|]]; run_go;
        by rewrite ?app_nil_r.
Qed.

(** Once the logger is open, [Run] of app.go makes exactly one pass,
    whatever the interval and the duration, and evaluates no tick. *)
Lemma Run_one_pass a c :
  os_Create os (core.LogFile (core.config a)) = None ->
  result (core.Run os a c) = None /\
  passes (events (core.Run os a c)) = 1%nat /\
  Forall (λ e, is_tick e = false) (events (core.Run os a c)).
Proof.
  intros Hlog. rewrite Run_unfold, Hlog.
  destruct (startup_spec a c) as (_ & _ & Hst).
  rewrite result_mk, events_mk.
  split; [done|]. split.
  - unfold passes. rewrite !calls_app.
    rewrite (startup_events_calls "psutil.Info") by done.
    change (calls "psutil.Info") with passes. rewrite Info_one_pass.
    by repeat case_match.
  - apply Forall_app. split; [by apply startup_events_no_tick|].
    apply Forall_app. split; [apply Info_no_tick|].
    repeat case_match; by repeat constructor.
Qed.

Lemma ParseFlags_valid fl cfg c :
  result (config.ParseFlags os fl c) = Returned (cfg, None) ->
  config.ParseFlags os fl c = (Returned (cfg, None), [], c).
Proof.
  unfold config.ParseFlags, result. run_go.
  repeat case_match; cbn; intros; by simplify_eq.
Qed.

(** The exit status of a process whose flags are valid is decided by
    [Run], hence by the logger alone. *)
Lemma main_valid fl cfg c :
  result (config.ParseFlags os fl c) = Returned (cfg, None) ->
  result (main_.main os fl c) =
    (if os_Create os (core.LogFile cfg) is Some _ then 1 else 0) /\
  passes (events (main_.main os fl c)) =
    passes (events (core.Run os (core.New "tinytop" cfg) c)).
Proof.
  intros Hfl%ParseFlags_valid. unfold main_.main, bind. rewrite Hfl.
  rewrite Run_unfold. cbn [core.config core.New].
  destruct (os_Create os (core.LogFile cfg)) as [e|] eqn:Hlog; run_go; rewrite ?Hlog.
  - rewrite result_mk, !events_mk. split; [done|]. by rewrite app_nil_r.
  - rewrite result_mk, !events_mk. split; [done|]. by rewrite app_nil_r.
Qed.

(** C7.  When the pass fails, [Run] logs the error as its last action,
    has made that one pass and no other, prints nothing and returns
    nil; a process started with the flags of this configuration then
    ends with status 0. *)
Theorem Run_stops_on_assembly_failure (name : string) (cfg : core.Config) (e : string) c :
  os_Create os (core.LogFile cfg) = None ->
  (result (psutil.Info os c)).2 = Some e ->
  result (core.Run os (core.New name cfg) c) = None /\
  last (events (core.Run os (core.New name cfg) c)) =
    Some (Log ErrorLevel [Err e] "Failed to get system info") /\
  passes (events (core.Run os (core.New name cfg) c)) = 1%nat /\
  (forall s, Println s ∉ events (core.Run os (core.New name cfg) c)) /\
  (forall fl, result (config.ParseFlags os fl c) = Returned (cfg, None) ->
              result (main_.main os fl c) = 0).
Proof.
  intros Hlog Herr.
  destruct (Run_one_pass (core.New name cfg) c Hlog) as (Hres & Hpass & _).
  split; [done|]. split; [|split; [done|split]].
  - rewrite Run_unfold. cbn [core.config core.New]. rewrite Hlog, events_mk.
    destruct (result (psutil.Info os c)) as [sysInfo err]. cbn in Herr. subst err.
    by rewrite app_assoc, last_snoc.
  - intros s. rewrite Run_unfold. cbn [core.config core.New]. rewrite Hlog, events_mk.
    destruct (startup_spec (core.New name cfg) c) as (_ & _ & Hst).
    pose proof (Info_no_tick os c) as Hinfo.
    destruct (result (psutil.Info os c)) as [sysInfo err]. cbn in Herr. subst err.
    rewrite !elem_of_app, list_elem_of_singleton.
    intros [Hin|[Hin|Hin]]; [| |done].
    + rewrite Forall_forall in Hst. by apply Hst in Hin.
    + revert Hin. unfold events. info_cases os; intros Hin.
      all: repeat (apply elem_of_cons in Hin as [Hin|Hin]; [done|]).
      all: try (by apply elem_of_nil in Hin).
      all: apply elem_of_app in Hin as [Hin|Hin];
        [by apply list_elem_of_fmap in Hin as (? & ? & _)|].
      all: repeat (apply elem_of_cons in Hin as [Hin|Hin]; [done|]).
      all: by apply elem_of_nil in Hin.
  - intros fl Hfl. destruct (main_valid fl cfg c Hfl) as [-> _]. by rewrite Hlog.
Qed.

(** C10.  [Run] returns what [InitLogger] returns: a non-nil error exactly
    when the logger cannot be initialised.  A failing pass and a failing
    JSON encoding are logged at error level and [Run] returns nil. *)
Theorem Run_error_iff_InitLogger (a : core.App) c :
  let init := result (utils.InitLogger os (core.LogFile (core.config a))
                        (core.LogToStdout (core.config a)) c) in
  result (core.Run os a c) = init /\
  (result (core.Run os a c) ≠ None <-> init ≠ None) /\
  (forall e, init = None -> (result (psutil.Info os c)).2 = Some e ->
     result (core.Run os a c) = None /\
     Log ErrorLevel [Err e] "Failed to get system info" ∈ events (core.Run os a c)) /\
  (forall sysInfo e, init = None -> result (psutil.Info os c) = (sysInfo, None) ->
     (json_MarshalIndent os _ sysInfo).2 = Some e ->
     result (core.Run os a c) = None /\
     Log ErrorLevel [Err e] "Failed to marshal system info to JSON"
       ∈ events (core.Run os a c)).
Proof.
  cbn zeta. rewrite InitLogger_result, Run_unfold.
  destruct (os_Create os (core.LogFile (core.config a))) as [e0|];
    rewrite result_mk, events_mk.
  - repeat split; done.
  - split; [done|]. split; [done|]. split.
    + intros e _ Herr. split; [done|].
      destruct (result (psutil.Info os c)) as [sysInfo err]. cbn in Herr. subst err.
      rewrite !elem_of_app, list_elem_of_singleton. auto.
    + intros sysInfo e _ -> Herr. split; [done|].
      destruct (json_MarshalIndent os _ sysInfo) as [json err]. cbn in Herr. subst err.
      rewrite !elem_of_app, list_elem_of_singleton. auto.
Qed.

(** C8 (amended).  With a non-positive interval or duration, and help not
    requested, [ParseFlags] returns an error beside the zero [Config] and
    the process ends with status 1; with help requested [ParseFlags]
    itself ends the process with status 0 before it validates anything.
    Either way the process makes no pass: the only call it can have made
    is [flag.Usage]. *)
Theorem invalid_flags_stop_before_collection (fl : config.Flags) c :
  config.interval fl <= 0 \/ config.duration fl <= 0 ->
  (config.help fl = false ->
     (exists e, result (config.ParseFlags os fl c) = Returned (config.zero_Config, Some e)) /\
     result (main_.main os fl c) = 1) /\
  (config.help fl = true ->
     result (config.ParseFlags os fl c) = Exited 0 /\
     result (main_.main os fl c) = 0) /\
  passes (events (main_.main os fl c)) = 0%nat /\
  (forall fn args, Call fn args ∈ events (main_.main os fl c) -> fn = "flag.Usage").
Proof.
  intros Hbad. unfold main_.main, config.ParseFlags, result, events. run_go.
  destruct (config.help fl); cbn.
  - repeat split; try done.
    intros fn args Hin. apply list_elem_of_singleton in Hin. by simplify_eq.
  - destruct (Z.leb_spec (config.interval fl) 0); cbn.
    + repeat split; eauto; try done.
      intros fn args Hin. by apply elem_of_nil in Hin.
    + destruct (Z.leb_spec (config.duration fl) 0); cbn; [|lia].
      repeat split; eauto; try done.
      intros fn args Hin. by apply elem_of_nil in Hin.
Qed.
End scheduler.

Section tick_loop.
Context `{GopsutilTypes} (os : Env).

Lemma log_cpuInfos_spec (cpuInfos : list cpu_InfoStat) i c :
  clock_of (core0.log_cpuInfos os i cpuInfos c) = c /\
  Forall (λ e, is_static_event e = true) (events (core0.log_cpuInfos os i cpuInfos c)) /\
  calls "host.Info" (events (core0.log_cpuInfos os i cpuInfos c)) = 0%nat /\
  calls "cpu.Info" (events (core0.log_cpuInfos os i cpuInfos c)) = 0%nat.
Proof.
  revert i. induction cpuInfos as [|cpuInfo rest IH]; intros i; [done|].
  cbn [core0.log_cpuInfos]. specialize (IH (S i)).
  unfold clock_of, events in *.
  destruct (json_Marshal os _ cpuInfo) as [json [e|]]; run_go;
    destruct (core0.log_cpuInfos os (S i) rest c) as [[[] evs] c1];
    cbn [fst snd] in *; destruct IH as (-> & IH1 & IH2 & IH3);
    (split; [done|]); (split; [by constructor|]); by rewrite !calls_app, IH2, IH3.
Qed.

Lemma log_static_info_spec c :
  clock_of (core0.log_static_info os c) = c /\
  Forall (λ e, is_static_event e = true) (events (core0.log_static_info os c)) /\
  calls "host.Info" (events (core0.log_static_info os c)) = 1%nat /\
  calls "cpu.Info" (events (core0.log_static_info os c)) = 1%nat.
Proof.
  unfold core0.log_static_info, clock_of, events. run_go.
  destruct (host_Info os) as [info [e|]]; cbn [fst snd];
    [|destruct (json_Marshal os _ info) as [json [e|]]; cbn [fst snd]].
  all: destruct (cpu_Info os) as [cpuInfos [e'|]]; cbn [fst snd].
  all: try (repeat split; [by repeat constructor|done..]).
  all: destruct (log_cpuInfos_spec cpuInfos 0 c) as (Hc & Hev & Hh & Hc').
  all: unfold clock_of, events in *.
  all: destruct (core0.log_cpuInfos os 0 cpuInfos c) as [[[] evs] c1]; cbn [fst snd] in *.
  all: subst c1; (split; [done|]); (split; [by repeat constructor|]).
  all: cbn [app]; by rewrite ?calls_app, ?calls_cons, ?calls_app, Hh, Hc'.
Qed.


Lemma Now_eq c :
  time_.Now os c =
    (now c + Z.of_N (elapse os (reads c)), [],
     {| now := now c + Z.of_N (elapse os (reads c)); reads := S (reads c) |}).
Proof. done. Qed.

Lemma poll_Done_eq c :
  time_.poll_Done os c =
    let t := now c + Z.of_N (elapse os (reads c)) in
    (time_.Done_ready os t,
     Poll t :: (if time_.Done_ready os t then [Cancelled t] else []),
     {| now := t; reads := S (reads c) |}).
Proof.
  unfold time_.poll_Done, bind. rewrite Now_eq. run_go.
  by destruct (time_.Done_ready os _).
Qed.

Lemma sleep_until_eq currentTime c :
  time_.sleep_until os currentTime c =
    let t := now c + Z.of_N (elapse os (reads c)) in
    let d := currentTime - t in
    let fire := t + Z.max d 0 in
    let cancelled :=
      match cancel_at os with
      | None => false
      | Some cc => (Z.max t cc <? fire) || ((Z.max t cc =? fire) && select_done_first os)
      end in
    let wake := if cancelled then Z.max t (default 0 (cancel_at os)) else fire in
    (cancelled,
     Sleep d :: (if cancelled then [Cancelled wake] else []),
     {| now := Z.max t wake; reads := S (reads c) |}).
Proof.
  unfold time_.sleep_until, bind. rewrite Now_eq. unfold time_.advance_to. run_go.
  destruct (cancel_at os) as [cc|]; cbn [default]; [|done].
  by destruct (_ || _).
Qed.

Lemma tick_loop_step fuel interval endTime currentTime c :
  core0.tick_loop os (S fuel) interval endTime currentTime c =
    if currentTime <? endTime then
      let '(cancelled, pev, c1) := time_.poll_Done os c in
      if cancelled then (Some None, pev, c1) else
      if endTime <? currentTime + interval then (Some None, pev, c1) else
      let '(t, _, c2) := time_.Now os c1 in
      if endTime <? t then (Some None, pev, c2) else
      let '(cancelled, sev, c3) := time_.sleep_until os (currentTime + interval) c2 in
      if cancelled then (Some None, pev ++ sev, c3) else
      let '(r, evs, c4) :=
        core0.tick_loop os fuel interval endTime (currentTime + interval) c3 in
      (r, pev ++ sev ++ evs, c4)
    else (Some None, [], c).
Proof.
  cbn [core0.tick_loop]. destruct (currentTime <? endTime); [|done].
  unfold bind at 1. destruct (time_.poll_Done os c) as [[[] pev] c1].
  { cbv [ret core0.return_]. by rewrite app_nil_r. }
  unfold bind at 1. destruct (endTime <? currentTime + interval).
  { cbv [ret core0.return_]. by rewrite !app_nil_r. }
  unfold bind at 1. rewrite Now_eq. cbv [ret]. cbn [app].
  destruct (endTime <? _).
  { cbv [ret core0.return_]. by rewrite !app_nil_r. }
  unfold bind at 1. destruct (time_.sleep_until os _ _) as [[[] sev] c3].
  { cbv [ret core0.return_]. by rewrite !app_nil_r. }
  by destruct (core0.tick_loop os fuel _ _ _ c3) as [[r evs] c4].
Qed.

Lemma loop_shape_cons e r evs :
  is_tick e = true -> is_cancelled e = false ->
  loop_shape r evs -> loop_shape r (e :: evs).
Proof.
  intros Ht Hc [Hticks Hshape]. split; [by constructor|].
  destruct Hshape as [Hnone|(pre & t & -> & Hpre & ->)].
  - left. by constructor.
  - right. exists (e :: pre), t. split; [done|]. split; [by constructor|done].
Qed.

(** The events of the loop are loop events; a [Cancelled] event, if
    there is one, is the last event, and the loop then ends with
    [return nil]. *)
Lemma tick_loop_shape fuel interval endTime currentTime c :
  loop_shape (result (core0.tick_loop os fuel interval endTime currentTime c))
             (events (core0.tick_loop os fuel interval endTime currentTime c)).
Proof.
  revert currentTime c. induction fuel as [|fuel IH]; intros ct c.
  { split; [|left]; constructor. }
  rewrite tick_loop_step.
  destruct (ct <? endTime); [|split; [|left]; constructor].
  rewrite poll_Done_eq. cbn zeta.
  destruct (time_.Done_ready os _).
  { split; [by repeat constructor|]. right. eexists [_], _. by repeat constructor. }
  destruct (endTime <? ct + interval).
  { split; [|left]; by repeat constructor. }
  rewrite Now_eq.
  destruct (endTime <? _).
  { split; [|left]; by repeat constructor. }
  rewrite sleep_until_eq. cbn zeta.
  destruct (match cancel_at os with Some _ => _ | None => false end).
  { split; [by repeat constructor|]. right. eexists [_; _], _. by repeat constructor. }
  match goal with |- context [core0.tick_loop os fuel ?i ?e ?t ?c'] =>
    specialize (IH t c'); destruct (core0.tick_loop os fuel i e t c') as [[r evs] c4]
  end.
  rewrite result_mk, events_mk in *. cbn [app]. by repeat apply loop_shape_cons.
Qed.

(** With a positive interval the loop ends: one unit of fuel per tick
    that fits before [endTime], and one more, is enough. *)
Lemma tick_loop_returns fuel interval endTime currentTime c :
  0 < interval ->
  endTime - currentTime <= Z.of_nat fuel * interval ->
  result (core0.tick_loop os (S fuel) interval endTime currentTime c) = Some None.
Proof.
  intros Hi. revert currentTime c. induction fuel as [|fuel IH]; intros ct c Hfuel;
    rewrite tick_loop_step.
  - destruct (Z.ltb_spec ct endTime); [lia|done].
  - destruct (ct <? endTime); [|done].
    rewrite poll_Done_eq. cbn zeta.
    destruct (time_.Done_ready os _); [done|].
    destruct (endTime <? ct + interval); [done|].
    rewrite Now_eq.
    destruct (endTime <? _); [done|].
    rewrite sleep_until_eq. cbn zeta.
    destruct (match cancel_at os with Some _ => _ | None => false end); [done|].
    match goal with |- context [core0.tick_loop os (S fuel) ?i ?e ?t ?c'] =>
      specialize (IH t c'); destruct (core0.tick_loop os (S fuel) i e t c') as [[r evs] c4]
    end.
    rewrite result_mk in *. apply IH. lia.
Qed.

(** [Run] of the loop revision: the logger cannot be opened, or the
    static information is logged and the loop runs from the two clock
    readings that fix [endTime] and [currentTime]. *)
Lemma Run0_unfold fuel a c :
  core0.Run os fuel a c =
    match os_Create os (core.LogFile (core.config a)) with
    | Some e => (Some (Some e), events (core.startup os a c), c)
    | None =>
        let t0 := now c + Z.of_N (elapse os (reads c)) in
        let currentTime := t0 + Z.of_N (elapse os (S (reads c))) in
        let loop :=
          core0.tick_loop os fuel (core.Interval (core.config a))
            (t0 + core.Duration (core.config a)) currentTime
            {| now := currentTime; reads := S (S (reads c)) |} in
        (result loop,
         events (core.startup os a c) ++ events (core0.log_static_info os c) ++
         Call "signal.Notify" ["os.Interrupt"; "syscall.SIGTERM"] :: events loop,
         clock_of loop)
    end.
Proof.
  destruct (startup_spec os a c) as (Hres & Hclock & _).
  destruct (log_static_info_spec c) as (Hsclock & _).
  unfold core0.Run, bind, result, clock_of, events in *.
  destruct (core.startup os a c) as [[err evs] c1]. cbn [fst snd] in *. subst c1 err.
  destruct (os_Create os _) as [e|].
  - cbv [ret core0.return_]. by rewrite app_nil_r.
  - destruct (core0.log_static_info os c) as [[[] sevs] c1]. cbn [fst snd] in *. subst c1.
    cbv [emit]. rewrite !Now_eq. cbn [now reads app]. cbn zeta.
    by destruct (core0.tick_loop os fuel _ _ _ _) as [[r levs] c3].
Qed.

Lemma cancelled_is_last (evs pre post : list Event) t :
  (Forall (λ e, is_cancelled e = false) evs \/
   exists pre' t', evs = pre' ++ [Cancelled t'] /\
                   Forall (λ e, is_cancelled e = false) pre') ->
  evs = pre ++ Cancelled t :: post -> post = [].
Proof.
  intros [Hnone|(pre' & t' & -> & Hpre')] Heq.
  - subst evs. apply Forall_app in Hnone as [_ Hnone].
    by apply Forall_cons in Hnone as [? _].
  - destruct post as [|x post _] using rev_ind; [done|].
    rewrite app_comm_cons, app_assoc in Heq.
    apply app_inj_tail in Heq as [-> _].
    apply Forall_app in Hpre' as [_ Hpre'].
    by apply Forall_cons in Hpre' as [? _].
Qed.

Lemma no_tick_polls (evs : list Event) :
  Forall (λ e, is_tick e = false) evs -> polls evs = [].
Proof. induction 1 as [|e evs He _ IH]; [done|]. by destruct e. Qed.

Lemma tick_calls fn (evs : list Event) :
  Forall (λ e, is_tick e = true) evs -> calls fn evs = 0%nat.
Proof.
  induction 1 as [|e evs He _ IH]; [done|].
  rewrite calls_cons, IH. by destruct e.
Qed.

Lemma static_events_no_tick (evs : list Event) :
  Forall (λ e, is_static_event e = true) evs -> Forall (λ e, is_tick e = false) evs.
Proof. intros Hst. eapply Forall_impl; [done|]. by intros []. Qed.

Lemma static_events_no_pass (evs : list Event) :
  Forall (λ e, is_static_event e = true) evs -> passes evs = 0%nat.
Proof.
  induction 1 as [|e evs He _ IH]; [done|].
  unfold passes in *. rewrite calls_cons, IH. destruct e as [f args| | | | |]; try done.
  cbn in *. destruct (String.eqb_spec f "psutil.Info") as [->|]; done.
Qed.

(** A [Cancelled] event is only recorded from the instant of
    cancellation on. *)
Lemma tick_loop_cancel_sound fuel interval endTime currentTime c t :
  Cancelled t ∈ events (core0.tick_loop os fuel interval endTime currentTime c) ->
  exists cc, cancel_at os = Some cc /\ cc <= t.
Proof.
  revert currentTime c. induction fuel as [|fuel IH]; intros ct c.
  { by intros ?%elem_of_nil. }
  rewrite tick_loop_step.
  destruct (ct <? endTime); [|by intros ?%elem_of_nil].
  rewrite poll_Done_eq. cbn zeta. unfold time_.Done_ready.
  destruct (cancel_at os) as [cc|] eqn:Hcc.
  - destruct (Z.leb_spec cc (now c + Z.of_N (elapse os (reads c)))).
    { rewrite events_mk. intros Hin.
      repeat (apply elem_of_cons in Hin as [Hin|Hin]; [simplify_eq; eauto|]).
      by apply elem_of_nil in Hin. }
    destruct (endTime <? ct + interval).
    { rewrite events_mk. by intros [?|?%elem_of_nil]%elem_of_cons. }
    rewrite Now_eq. destruct (endTime <? _).
    { rewrite events_mk. by intros [?|?%elem_of_nil]%elem_of_cons. }
    rewrite sleep_until_eq. cbn zeta. rewrite Hcc. cbn [default].
    destruct (_ || _).
    { rewrite events_mk. intros Hin.
      repeat (apply elem_of_cons in Hin as [Hin|Hin]; [simplify_eq; try (eexists; split; [done|lia])|]).
      by apply elem_of_nil in Hin. }
    match goal with |- context [core0.tick_loop os fuel ?i ?e ?t' ?c'] =>
      specialize (IH t' c'); destruct (core0.tick_loop os fuel i e t' c') as [[r evs] c4]
    end.
    rewrite events_mk in *. cbn [app]. intros Hin.
    repeat (apply elem_of_cons in Hin as [Hin|Hin]; [done|]). by apply IH.
  - destruct (endTime <? ct + interval).
    { rewrite events_mk. by intros [?|?%elem_of_nil]%elem_of_cons. }
    rewrite Now_eq. destruct (endTime <? _).
    { rewrite events_mk. by intros [?|?%elem_of_nil]%elem_of_cons. }
    rewrite sleep_until_eq. cbn zeta. rewrite Hcc.
    match goal with |- context [core0.tick_loop os fuel ?i ?e ?t' ?c'] =>
      specialize (IH t' c'); destruct (core0.tick_loop os fuel i e t' c') as [[r evs] c4]
    end.
    rewrite events_mk in *. cbn [app]. intros Hin.
    repeat (apply elem_of_cons in Hin as [Hin|Hin]; [done|]).
    destruct (IH Hin) as (? & ? & _). done.
Qed.

(** C4.  A run of the loop revision in which a checkpoint observes the
    cancellation (the event [Cancelled t], at the head of the loop or
    during the wait) ends at that event: nothing is done after it, and
    [Run] has returned nil.  The observation is not spurious: the
    context was cancelled at or before [t]. *)
Theorem cancellation_is_clean_return fuel (a : core.App) c pre t post :
  events (core0.Run os fuel a c) = pre ++ Cancelled t :: post ->
  post = [] /\
  result (core0.Run os fuel a c) = Some None /\
  exists cc, cancel_at os = Some cc /\ cc <= t.
Proof.
  rewrite Run0_unfold.
  destruct (startup_spec os a c) as (_ & _ & Hst).
  destruct (log_static_info_spec c) as (_ & Hsi & _).
  destruct (os_Create os _) as [e|]; cbn zeta; rewrite events_mk, result_mk.
  { intros Heq. rewrite Heq in Hst.
    apply Forall_app in Hst as [_ Hst]. by apply Forall_cons in Hst as [? _]. }
  set (loop := core0.tick_loop os fuel _ _ _ _).
  destruct (tick_loop_shape fuel (core.Interval (core.config a))
              (now c + Z.of_N (elapse os (reads c)) + core.Duration (core.config a))
              (now c + Z.of_N (elapse os (reads c)) + Z.of_N (elapse os (S (reads c))))
              {| now := now c + Z.of_N (elapse os (reads c)) + Z.of_N (elapse os (S (reads c)));
                 reads := S (S (reads c)) |}) as [_ Hshape].
  fold loop in Hshape.
  set (head := events (core.startup os a c) ++ events (core0.log_static_info os c) ++
               [Call "signal.Notify" ["os.Interrupt"; "syscall.SIGTERM"]]).
  assert (Hhead : Forall (λ e, is_cancelled e = false) head).
  { subst head. rewrite !Forall_app. split; [|split].
    - eapply Forall_impl; [exact Hst|]. by intros [].
    - eapply Forall_impl; [exact Hsi|]. by intros [].
    - by repeat constructor. }
  intros Heq.
  assert (Heq' : head ++ events loop = pre ++ Cancelled t :: post).
  { subst head. by rewrite <- !app_assoc. }
  clear Heq.
  assert (Hin : Cancelled t ∈ events loop).
  { assert (Hin : Cancelled t ∈ head ++ events loop) by (rewrite Heq'; apply elem_of_app; right; left).
    apply elem_of_app in Hin as [Hin|Hin]; [|done].
    rewrite Forall_forall in Hhead. by apply Hhead in Hin. }
  split; [|split].
  - eapply (cancelled_is_last (head ++ events loop)); [|done].
    destruct Hshape as [Hnone|(pre' & t' & Hev & Hpre' & _)].
    + left. by apply Forall_app.
    + right. exists (head ++ pre'), t'. rewrite Hev, app_assoc. split; [done|].
      by apply Forall_app.
  - destruct Hshape as [Hnone|(pre' & t' & Hev & Hpre' & Hres)]; [|done].
    rewrite Forall_forall in Hnone. by apply Hnone in Hin.
  - by apply tick_loop_cancel_sound in Hin.
Qed.

Lemma fuel_for_enough (cfg : core.Config) fuel :
  0 < core.Interval cfg -> (fuel_for cfg <= S fuel)%nat ->
  core.Duration cfg <= Z.of_nat fuel * core.Interval cfg.
Proof.
  unfold fuel_for. intros Hi Hfuel.
  pose proof (Z.mul_succ_div_gt (core.Duration cfg) (core.Interval cfg) Hi) as Hdiv.
  destruct (Z.le_gt_cases 0 (core.Duration cfg / core.Interval cfg + 1)) as [Hq|Hq].
  - assert (core.Duration cfg / core.Interval cfg + 1 <= Z.of_nat fuel) by lia. nia.
  - nia.
Qed.

(** With a positive interval and [fuel_for] fuel, [Run] of the loop
    revision returns, and what it returns is what the logger returned. *)
Lemma Run0_returns fuel (a : core.App) c :
  0 < core.Interval (core.config a) ->
  (fuel_for (core.config a) <= fuel)%nat ->
  result (core0.Run os fuel a c) = Some (os_Create os (core.LogFile (core.config a))).
Proof.
  intros Hi Hfuel. rewrite Run0_unfold.
  destruct (os_Create os _) as [e|]; cbn zeta; rewrite result_mk; [done|].
  destruct fuel as [|fuel]; [unfold fuel_for in Hfuel; lia|]. f_equal.
  apply tick_loop_returns; [done|].
  pose proof (fuel_for_enough _ _ Hi Hfuel). lia.
Qed.

(** The loop never ends with an error. *)
Lemma tick_loop_result fuel interval endTime currentTime c :
  result (core0.tick_loop os fuel interval endTime currentTime c) = None \/
  result (core0.tick_loop os fuel interval endTime currentTime c) = Some None.
Proof.
  revert currentTime c. induction fuel as [|fuel IH]; intros ct c; [by left|].
  rewrite tick_loop_step.
  destruct (ct <? _); [|by right].
  rewrite poll_Done_eq. cbn zeta.
  destruct (time_.Done_ready os _); [by right|].
  destruct (_ <? ct + _); [by right|].
  rewrite Now_eq. destruct (_ <? _); [by right|].
  rewrite sleep_until_eq. cbn zeta.
  destruct (match cancel_at os with Some _ => _ | None => false end); [by right|].
  match goal with |- context [core0.tick_loop os fuel ?i ?e ?t' ?c'] =>
    specialize (IH t' c'); destruct (core0.tick_loop os fuel i e t' c') as [[r' evs] c4]
  end.
  by rewrite result_mk in *.
Qed.

Lemma Run0_result fuel (a : core.App) c r :
  result (core0.Run os fuel a c) = Some r ->
  r = os_Create os (core.LogFile (core.config a)).
Proof.
  rewrite Run0_unfold.
  destruct (os_Create os _) as [e|]; cbn zeta; rewrite result_mk; [by intros [= <-]|].
  match goal with |- context [core0.tick_loop os fuel ?i ?e ?t' ?c'] =>
    destruct (tick_loop_result fuel i e t' c') as [-> | ->]
  end; [done|by intros [= <-]].
Qed.

(** One turn of the loop when nothing cancels: the tick after this one
    still fits and the clock has not passed [endTime]. *)
Lemma tick_loop_continue fuel interval endTime currentTime c :
  cancel_at os = None ->
  currentTime < endTime ->
  currentTime + interval <= endTime ->
  let p := now c + Z.of_N (elapse os (reads c)) in
  let t := p + Z.of_N (elapse os (S (reads c))) in
  let u := t + Z.of_N (elapse os (S (S (reads c)))) in
  t <= endTime ->
  core0.tick_loop os (S fuel) interval endTime currentTime c =
    let loop := core0.tick_loop os fuel interval endTime (currentTime + interval)
                  {| now := Z.max u (currentTime + interval); reads := S (S (S (reads c))) |} in
    (result loop, Poll p :: Sleep (currentTime + interval - u) :: events loop, clock_of loop).
Proof.
  intros Hcc Hlt Hnext p t u Hnow. rewrite tick_loop_step.
  destruct (Z.ltb_spec currentTime endTime); [|lia].
  rewrite poll_Done_eq. cbn zeta. unfold time_.Done_ready. rewrite Hcc.
  destruct (Z.ltb_spec endTime (currentTime + interval)); [lia|].
  rewrite Now_eq. cbn [now reads]. fold p t.
  destruct (Z.ltb_spec endTime t); [lia|].
  rewrite sleep_until_eq. cbn zeta. rewrite Hcc. cbn [now reads]. fold u.
  replace (Z.max u (u + Z.max (currentTime + interval - u) 0))
    with (Z.max u (currentTime + interval)) by lia.
  by destruct (core0.tick_loop os fuel _ _ _ _) as [[r evs] c4].
Qed.

(** The last turn: the next tick would fall after [endTime]. *)
Lemma tick_loop_break fuel interval endTime currentTime c :
  cancel_at os = None ->
  currentTime < endTime ->
  endTime < currentTime + interval ->
  core0.tick_loop os (S fuel) interval endTime currentTime c =
    (Some None, [Poll (now c + Z.of_N (elapse os (reads c)))],
     {| now := now c + Z.of_N (elapse os (reads c)); reads := S (reads c) |}).
Proof.
  intros Hcc Hlt Hnext. rewrite tick_loop_step.
  destruct (Z.ltb_spec currentTime endTime); [|lia].
  rewrite poll_Done_eq. cbn zeta. unfold time_.Done_ready. rewrite Hcc.
  by destruct (Z.ltb_spec endTime (currentTime + interval)); [|lia].
Qed.

(** The loop of scenario A, entered with the clock on the first tick and
    between 340ms and 350ms left: four turns, each polled within 10ms of
    its tick, three waits in between, and the exit when the fifth tick
    (400ms) would pass [endTime]. *)
Lemma tick_loop_scenario_A fuel endTime c :
  cancel_at os = None ->
  (forall k, Z.of_N (elapse os k) <= 10 * Millisecond) ->
  now c + 340 * Millisecond <= endTime <= now c + 350 * Millisecond ->
  let r := core0.tick_loop os (4 + fuel) (100 * Millisecond) endTime (now c) c in
  result r = Some None /\
  exists p0 d0 p1 d1 p2 d2 p3,
    events r = [Poll p0; Sleep d0; Poll p1; Sleep d1; Poll p2; Sleep d2; Poll p3] /\
    Forall2 (λ p k, now c + k * (100 * Millisecond) <= p
                    <= now c + k * (100 * Millisecond) + 10 * Millisecond)
            [p0; p1; p2; p3] [0; 1; 2; 3] /\
    Forall (λ d, 70 * Millisecond <= d <= 100 * Millisecond) [d0; d1; d2].
Proof.
  intros Hcc Hel Hend. unfold Millisecond in *.
  pose proof (Hel (reads c)). pose proof (Hel (S (reads c))).
  pose proof (Hel (S (S (reads c)))). pose proof (Hel (3 + reads c)%nat).
  pose proof (Hel (S (3 + reads c))). pose proof (Hel (S (S (3 + reads c)))).
  pose proof (Hel (6 + reads c)%nat). pose proof (Hel (S (6 + reads c))).
  pose proof (Hel (S (S (6 + reads c)))). pose proof (Hel (9 + reads c)%nat).
  cbn [Nat.add] in *. cbn zeta.
  rewrite tick_loop_continue by (done || lia). cbn zeta.
  rewrite Z.max_r by lia.
  rewrite (tick_loop_continue _ _ _ (now c + 100 * 1000000)) by (done || cbn [now reads]; lia).
  cbn zeta. cbn [now reads]. rewrite events_mk, result_mk, clock_of_mk.
  rewrite Z.max_r by lia.
  rewrite (tick_loop_continue _ _ _ (now c + 100 * 1000000 + 100 * 1000000))
    by (done || cbn [now reads]; lia).
  cbn zeta. cbn [now reads]. rewrite events_mk, result_mk, clock_of_mk.
  rewrite Z.max_r by lia.
  rewrite tick_loop_break by (done || lia).
  rewrite events_mk, result_mk. cbn [now reads].
  split; [done|]. do 7 eexists. split; [done|].
  split; repeat constructor; lia.
Qed.

(** C3 (amended).  With interval 100ms and duration 350ms, the logger open
    and no cancellation, [Run] of app.go makes exactly one pass and
    evaluates no tick (its loop is commented out).  In the revision that
    has the loop, when no look at the clock costs more than 10ms, the
    loop takes exactly four turns, polled within 10ms of the ticks 0,
    100, 200 and 300ms counted from the first tick, and leaves when the
    next tick, 400ms, would pass the end; that loop makes no pass: host
    and CPU information are read once, before it. *)
Theorem scenario_A_passes (name logFile : string) (logToStdout : bool) c :
  let cfg := {| core.Interval := 100 * Millisecond; core.Duration := 350 * Millisecond;
                core.LogFile := logFile; core.LogToStdout := logToStdout |} in
  os_Create os logFile = None ->
  cancel_at os = None ->
  (result (core.Run os (core.New name cfg) c) = None /\
   passes (events (core.Run os (core.New name cfg) c)) = 1%nat /\
   Forall (λ e, is_tick e = false) (events (core.Run os (core.New name cfg) c))) /\
  ((forall k, Z.of_N (elapse os k) <= 10 * Millisecond) ->
   let r := core0.Run os (fuel_for cfg) (core.New name cfg) c in
   result r = Some None /\
   passes (events r) = 0%nat /\
   calls "host.Info" (events r) = 1%nat /\
   calls "cpu.Info" (events r) = 1%nat /\
   exists t0 p0 p1 p2 p3,
     now c <= t0 <= now c + 20 * Millisecond /\
     polls (events r) = [p0; p1; p2; p3] /\
     Forall2 (λ p k, t0 + k * (100 * Millisecond) <= p
                     <= t0 + k * (100 * Millisecond) + 10 * Millisecond)
             [p0; p1; p2; p3] [0; 1; 2; 3]).
Proof.
  intros cfg Hlog Hcc. split; [by apply Run_one_pass|].
  intros Hel r. subst r. rewrite Run0_unfold. cbn [core.config core.New cfg core.LogFile].
  rewrite Hlog. cbn zeta. rewrite result_mk, events_mk.
  cbn [core.Interval core.Duration].
  change (fuel_for cfg) with (4 + 1)%nat.
  set (t0 := now c + Z.of_N (elapse os (reads c))).
  set (ct := t0 + Z.of_N (elapse os (S (reads c)))).
  set (c2 := {| now := ct; reads := S (S (reads c)) |}).
  pose proof (Hel (reads c)) as He0. pose proof (Hel (S (reads c))) as He1.
  destruct (tick_loop_scenario_A 1 (t0 + 350 * Millisecond) c2 Hcc Hel)
    as (Hres & p0 & d0 & p1 & d1 & p2 & d2 & p3 & Hev & Hp & _).
  { cbn [c2 now]. unfold Millisecond in *. lia. }
  cbn [c2 now] in Hres, Hev, Hp. fold c2 in Hres, Hev.
  destruct (startup_spec os (core.New name cfg) c) as (_ & _ & Hst).
  destruct (log_static_info_spec c) as (_ & Hsi & Hhost & Hcpu).
  change (core.Interval cfg) with (100 * Millisecond).
  change (core.Duration cfg) with (350 * Millisecond).
  split; [done|]. rewrite Hev.
  set (loop := [Poll p0; Sleep d0; Poll p1; Sleep d1; Poll p2; Sleep d2; Poll p3]).
  unfold passes. rewrite !calls_app, !calls_cons.
  rewrite (startup_events_calls "psutil.Info" _ eq_refl Hst).
  rewrite (startup_events_calls "host.Info" _ eq_refl Hst).
  rewrite (startup_events_calls "cpu.Info" _ eq_refl Hst).
  fold (passes (events (core0.log_static_info os c))).
  rewrite (static_events_no_pass _ Hsi), Hhost, Hcpu.
  repeat (split; [done|]).
  exists ct, p0, p1, p2, p3. split; [unfold Millisecond in *; lia|]. split; [|done].
  rewrite !polls_app.
  rewrite (no_tick_polls _ (startup_events_no_tick _ Hst)).
  by rewrite (no_tick_polls _ (static_events_no_tick _ Hsi)).
Qed.

(** When interval >= duration the loop of the loop revision, once
    entered, takes a single turn. *)
Lemma tick_loop_single_turn fuel interval endTime currentTime c :
  cancel_at os = None ->
  currentTime < endTime ->
  endTime <= currentTime + interval ->
  result (core0.tick_loop os (2 + fuel) interval endTime currentTime c) = Some None /\
  length (polls (events (core0.tick_loop os (2 + fuel) interval endTime currentTime c))) = 1%nat.
Proof.
  intros Hcc Hlt Hnext. cbn [Nat.add]. rewrite tick_loop_step.
  destruct (Z.ltb_spec currentTime endTime); [|lia].
  rewrite poll_Done_eq. cbn zeta. unfold time_.Done_ready. rewrite Hcc.
  destruct (endTime <? currentTime + interval); [done|].
  rewrite Now_eq. destruct (endTime <? _); [done|].
  rewrite sleep_until_eq. cbn zeta. rewrite Hcc.
  rewrite tick_loop_step.
  by destruct (Z.ltb_spec (currentTime + interval) endTime); [lia|].
Qed.
(** Past the end the loop does nothing. *)
Lemma tick_loop_turn_zero fuel interval endTime currentTime c :
  endTime <= currentTime ->
  polls (events (core0.tick_loop os fuel interval endTime currentTime c)) = [].
Proof.
  intros Hpast. destruct fuel as [|fuel]; [done|]. rewrite tick_loop_step.
  by destruct (Z.ltb_spec currentTime endTime); [lia|].
Qed.

(** The loop of the loop revision when interval >= duration > 0 and
    nothing cancels: no turn when the duration has already passed between
    the two clock readings of [Run], otherwise a single turn. *)
Lemma Run0_single_turn (name : string) (cfg : core.Config) c :
  0 < core.Duration cfg ->
  core.Duration cfg <= core.Interval cfg ->
  os_Create os (core.LogFile cfg) = None ->
  cancel_at os = None ->
  let r := core0.Run os (fuel_for cfg) (core.New name cfg) c in
  result r = Some None /\
  (length (polls (events r)) <= 1)%nat /\
  (Z.of_N (elapse os (S (reads c))) < core.Duration cfg -> length (polls (events r)) = 1%nat).
Proof.
  intros Hd Hi Hlog Hcc r. subst r. rewrite Run0_unfold. cbn [core.config core.New].
  rewrite Hlog. cbn zeta. rewrite result_mk, events_mk.
  destruct (startup_spec os (core.New name cfg) c) as (_ & _ & Hst).
  destruct (log_static_info_spec c) as (_ & Hsi & _).
  rewrite !polls_app. cbn [polls].
  rewrite (no_tick_polls _ (startup_events_no_tick _ Hst)).
  rewrite (no_tick_polls _ (static_events_no_tick _ Hsi)). cbn [app].
  assert (Hfuel : exists f, fuel_for cfg = (2 + f)%nat).
  { unfold fuel_for.
    assert (0 <= core.Duration cfg / core.Interval cfg) by (apply Z.div_pos; lia).
    exists (Z.to_nat (core.Duration cfg / core.Interval cfg)).
    rewrite Z2Nat.inj_add by lia. cbn. lia. }
  destruct Hfuel as [f ->].
  set (t0 := now c + Z.of_N (elapse os (reads c))).
  set (e1 := Z.of_N (elapse os (S (reads c)))).
  destruct (Z.lt_ge_cases e1 (core.Duration cfg)) as [Hin|Hout].
  - destruct (tick_loop_single_turn f (core.Interval cfg) (t0 + core.Duration cfg) (t0 + e1)
                {| now := t0 + e1; reads := S (S (reads c)) |} Hcc) as [Hres Hpolls];
      [lia | subst e1; lia |].
    rewrite Hres, Hpolls. by repeat split.
  - cbn [Nat.add]. rewrite tick_loop_step.
    destruct (Z.ltb_spec (t0 + e1) (t0 + core.Duration cfg)); [lia|].
    rewrite result_mk, events_mk. cbn. repeat split; [lia|]. intros; lia.
Qed.

(** C9 (amended).  For a configuration with interval >= duration > 0:
    [Run] of app.go makes exactly one pass and returns nil when the log
    file can be created, and makes no pass when it cannot; it evaluates no
    tick at all, its loop being commented out.  In the revision that has
    the loop, with the logger open and no cancellation, [Run] returns nil
    and the loop takes a single turn, or none when the duration has
    already passed between the two clock readings that fix the end and
    the first tick; that loop makes no pass: host and CPU information are
    read once each, and every event before the first poll is outside the
    loop while every event from it on belongs to the loop. *)
Theorem single_pass_when_interval_covers_duration (name : string) (cfg : core.Config) c :
  0 < core.Duration cfg ->
  core.Duration cfg <= core.Interval cfg ->
  (os_Create os (core.LogFile cfg) = None ->
   result (core.Run os (core.New name cfg) c) = None /\
   passes (events (core.Run os (core.New name cfg) c)) = 1%nat /\
   Forall (λ e, is_tick e = false) (events (core.Run os (core.New name cfg) c))) /\
  (forall e, os_Create os (core.LogFile cfg) = Some e ->
   result (core.Run os (core.New name cfg) c) = Some e /\
   passes (events (core.Run os (core.New name cfg) c)) = 0%nat) /\
  (os_Create os (core.LogFile cfg) = None ->
   cancel_at os = None ->
   let r := core0.Run os (fuel_for cfg) (core.New name cfg) c in
   result r = Some None /\
   passes (events r) = 0%nat /\
   calls "host.Info" (events r) = 1%nat /\
   calls "cpu.Info" (events r) = 1%nat /\
   length (polls (events r)) =
     (if Z.of_N (elapse os (S (reads c))) <? core.Duration cfg then 1%nat else 0%nat) /\
   exists before loop,
     events r = before ++ loop /\
     Forall (λ e, is_tick e = false) before /\
     Forall (λ e, is_tick e = true) loop /\
     calls "host.Info" before = 1%nat /\ calls "cpu.Info" before = 1%nat).
Proof.
  intros Hd Hi. split; [intros Hlog; by apply Run_one_pass|]. split.
  - intros e Hlog. rewrite Run_unfold. cbn [core.config core.New]. rewrite Hlog.
    rewrite result_mk, events_mk. split; [done|].
    destruct (startup_spec os (core.New name cfg) c) as (_ & _ & Hst).
    by apply (startup_events_calls "psutil.Info").
  - intros Hlog Hcc.
    destruct (Run0_single_turn name cfg c Hd Hi Hlog Hcc) as (Hres & Hle & Hone).
    cbn zeta in *. split; [done|].
    revert Hle Hone. rewrite Run0_unfold. cbn [core.config core.New]. rewrite Hlog.
    cbn zeta. rewrite events_mk.
    destruct (startup_spec os (core.New name cfg) c) as (_ & _ & Hst).
    destruct (log_static_info_spec c) as (_ & Hsi & Hhost & Hcpu).
    match goal with |- context [core0.tick_loop os ?f ?i ?e ?t ?c'] =>
      destruct (tick_loop_shape f i e t c') as [Hticks _];
      pose proof (tick_loop_turn_zero f i e t c') as Hzero;
      set (loop := events (core0.tick_loop os f i e t c')) in *
    end.
    set (before := events (core.startup os (core.New name cfg) c) ++
                   events (core0.log_static_info os c) ++
                   [Call "signal.Notify" ["os.Interrupt"; "syscall.SIGTERM"]]).
    replace (events (core.startup os (core.New name cfg) c) ++
             events (core0.log_static_info os c) ++
             Call "signal.Notify" ["os.Interrupt"; "syscall.SIGTERM"] :: loop)
      with (before ++ loop) by (subst before; by rewrite <- !app_assoc).
    assert (Hbefore : Forall (λ e, is_tick e = false) before).
    { subst before. rewrite !Forall_app. split; [by apply startup_events_no_tick|].
      split; [by apply static_events_no_tick|by repeat constructor]. }
    assert (Hbh : calls "host.Info" before = 1%nat).
    { subst before. rewrite !calls_app.
      by rewrite (startup_events_calls "host.Info" _ eq_refl Hst), Hhost. }
    assert (Hbc : calls "cpu.Info" before = 1%nat).
    { subst before. rewrite !calls_app.
      by rewrite (startup_events_calls "cpu.Info" _ eq_refl Hst), Hcpu. }
    assert (Hbp : passes before = 0%nat).
    { subst before. unfold passes. rewrite !calls_app.
      rewrite (startup_events_calls "psutil.Info" _ eq_refl Hst).
      fold (passes (events (core0.log_static_info os c))).
      by rewrite (static_events_no_pass _ Hsi). }
    intros Hle Hone.
    split; [unfold passes in *; by rewrite calls_app, Hbp, (tick_calls _ _ Hticks)|].
    split; [by rewrite calls_app, Hbh, (tick_calls _ _ Hticks)|].
    split; [by rewrite calls_app, Hbc, (tick_calls _ _ Hticks)|].
    split.
    + destruct (Z.ltb_spec (Z.of_N (elapse os (S (reads c)))) (core.Duration cfg)) as [Hin|Hout].
      * by apply Hone.
      * rewrite polls_app, (no_tick_polls _ Hbefore). cbn [app].
        subst loop. rewrite Hzero; [done|]. cbn [now]. lia.
    + by exists before, loop.
Qed.
End tick_loop.


(** * The properties at work on the concrete environments *)

(** C1, counterexample.  On a healthy host whose swap-memory reader fails,
    [Info] returns no snapshot but the reader's error. *)
Lemma swap_memory_failure_example :
  (mem_SwapMemory swap_failure_env).2 = Some "swap: not supported" /\
  result (psutil.Info swap_failure_env clock0) = (None, Some "swap: not supported") /\
  ~ (exists info, result (psutil.Info swap_failure_env clock0) = (Some info, None)).
Proof.
  split; [reflexivity|]. split; [reflexivity|].
  intros [info Hinfo]. vm_compute in Hinfo. discriminate Hinfo.
Qed.

Lemma Info_swap_memory_failure_aborts_witness :
  (result (psutil.Info swap_failure_env clock0)).1 = None.
Proof.
  destruct (Info_swap_memory_failure_aborts swap_failure_env "swap: not supported" clock0)
    as [Hnil _].
  - reflexivity.
  - exact Hnil.
Defined.

Lemma Info_mandatory_failure_witness :
  result (psutil.Info memory_failure_env clock0) = (None, Some "sysctl failed").
Proof.
  destruct (Info_mandatory_failure memory_failure_env VirtualMemory "sysctl failed" clock0)
    as (_ & _ & Hfirst).
  - reflexivity.
  - apply Hfirst. intros m' Hrank. destruct m'; try reflexivity.
    exfalso. cbn in Hrank. lia.
Defined.

(** C3, counterexample.  Scenario A on a healthy host, never cancelled:
    one pass, not four. *)
Lemma scenario_A_example :
  os_Create demo_env (core.LogFile config_A) = None /\
  cancel_at demo_env = None /\
  passes (events (core.Run demo_env (core.New "tinytop" config_A) clock0)) = 1%nat /\
  passes (events (core.Run demo_env (core.New "tinytop" config_A) clock0)) ≠ 4%nat.
Proof. repeat split; [reflexivity..|]. vm_compute. discriminate. Qed.

Lemma scenario_A_passes_witness :
  passes (events (core.Run demo_env (core.New "tinytop" config_A) clock0)) = 1%nat /\
  length (polls (events (core0.Run demo_env (fuel_for config_A)
                           (core.New "tinytop" config_A) clock0))) = 4%nat.
Proof.
  destruct (scenario_A_passes demo_env "tinytop" "tinytop.log" false clock0 eq_refl eq_refl)
    as [(_ & Hpass & _) Hloop].
  split; [exact Hpass|].
  destruct Hloop as (_ & _ & _ & _ & t0 & p0 & p1 & p2 & p3 & _ & Hpolls & _).
  - intros k. vm_compute. discriminate.
  - change config_A with
      {| core.Interval := 100 * Millisecond; core.Duration := 350 * Millisecond;
         core.LogFile := "tinytop.log"; core.LogToStdout := false |}.
    rewrite Hpolls. reflexivity.
Defined.

Lemma cancellation_is_clean_return_witness :
  result (core0.Run interrupted_env (fuel_for config_C) (core.New "tinytop" config_C) clock0)
    = Some None.
Proof.
  pose (r := core0.Run interrupted_env (fuel_for config_C) (core.New "tinytop" config_C) clock0).
  destruct (cancellation_is_clean_return interrupted_env (fuel_for config_C)
              (core.New "tinytop" config_C) clock0
              (removelast (events r)) (50 * Millisecond) []) as (_ & Hres & _).
  - vm_compute. reflexivity.
  - exact Hres.
Defined.

Lemma Info_skips_nobrowse_witness :
  vm_part ∈ (disk_Partitions demo_env).1 /\
  nobrowse vm_part /\
  (usage_queries (events (psutil.Info demo_env clock0)) = [] \/
   usage_queries (events (psutil.Info demo_env clock0)) =
     Mountpoint <$> filter (λ p, ¬ nobrowse p) (disk_Partitions demo_env).1).
Proof.
  assert (Hin : vm_part ∈ (disk_Partitions demo_env).1).
  { cbn. apply list_elem_of_further, list_elem_of_here. }
  assert (Hnb : nobrowse vm_part).
  { unfold nobrowse. cbn. apply list_elem_of_further, list_elem_of_here. }
  split; [exact Hin|]. split; [exact Hnb|].
  destruct (Info_skips_nobrowse demo_env vm_part clock0 Hin Hnb) as (_ & Hqueries & _).
  exact Hqueries.
Defined.

Lemma Info_usage_failure_recorded_witness :
  exists info,
    result (psutil.Info demo_env clock0) = (Some info, None) /\
    {| psutil.Partition := usb_part; psutil.Usage := None;
       psutil.UsageErr := Some "permission denied" |} ∈ psutil.Partitions info.
Proof.
  destruct (Info_usage_failure_recorded demo_env usb_part "permission denied" clock0)
    as (info & Hres & Hin & _).
  - split; [intros m; destruct m; reflexivity | reflexivity].
  - cbn. apply list_elem_of_further, list_elem_of_further, list_elem_of_here.
  - unfold nobrowse. cbn. intros Hin. apply list_elem_of_singleton in Hin. discriminate Hin.
  - reflexivity.
  - exists info. split; [exact Hres | exact Hin].
Defined.

Lemma Run_stops_on_assembly_failure_witness :
  result (core.Run memory_failure_env (core.New "tinytop" config_A) clock0) = None /\
  result (main_.main memory_failure_env flags_A clock0) = 0.
Proof.
  destruct (Run_stops_on_assembly_failure memory_failure_env "tinytop" config_A
              "sysctl failed" clock0 eq_refl eq_refl) as (Hres & _ & _ & _ & Hmain).
  split; [exact Hres|]. apply Hmain. reflexivity.
Defined.

(** C8, counterexample.  With [-h] beside a zero interval, [ParseFlags]
    returns nothing: it ends the process with status 0. *)
Lemma help_before_validation_example :
  config.interval flags_help_zero_interval <= 0 /\
  result (config.ParseFlags demo_env flags_help_zero_interval clock0) = Exited 0 /\
  ~ (exists cfg e, result (config.ParseFlags demo_env flags_help_zero_interval clock0)
                   = Returned (cfg, Some e)).
Proof.
  split; [discriminate|]. split; [reflexivity|].
  intros (cfg & e & Hres). vm_compute in Hres. discriminate Hres.
Qed.

Lemma invalid_flags_stop_before_collection_witness :
  result (main_.main demo_env flags_zero_interval clock0) = 1 /\
  passes (events (main_.main demo_env flags_zero_interval clock0)) = 0%nat.
Proof.
  destruct (invalid_flags_stop_before_collection demo_env flags_zero_interval clock0)
    as (Hnohelp & _ & Hpass & _).
  - left. discriminate.
  - split; [apply Hnohelp; reflexivity | exact Hpass].
Defined.

(** C9, counterexample.  Interval 1s, duration 1s, never cancelled, no
    pass failing: no pass at all when the log file cannot be created; and
    in the loop revision, the only one that evaluates a next tick, none
    either. *)
Lemma interval_covers_duration_example :
  0 < core.Duration config_B /\
  core.Duration config_B <= core.Interval config_B /\
  cancel_at readonly_env = None /\
  passes (events (core.Run readonly_env (core.New "tinytop" config_B) clock0)) = 0%nat /\
  passes (events (core0.Run demo_env (fuel_for config_B)
                    (core.New "tinytop" config_B) clock0)) = 0%nat.
Proof.
  split; [reflexivity|]. split; [discriminate|]. split; [reflexivity|].
  split; reflexivity.
Qed.

Lemma single_pass_when_interval_covers_duration_witness :
  passes (events (core.Run demo_env (core.New "tinytop" config_B) clock0)) = 1%nat /\
  length (polls (events (core0.Run demo_env (fuel_for config_B)
                           (core.New "tinytop" config_B) clock0))) = 1%nat.
Proof.
  destruct (single_pass_when_interval_covers_duration demo_env "tinytop" config_B clock0)
    as (Happ & _ & Hloop).
  - reflexivity.
  - discriminate.
  - destruct (Happ eq_refl) as (_ & Hpass & _).
    destruct (Hloop eq_refl eq_refl) as (_ & _ & _ & _ & Hpolls & _).
    split; [exact Hpass | exact Hpolls].
Defined.

(** * Further properties of the assembler *)

Section assembler_more.
Context `{GopsutilTypes} (os : Env).

(** X1.  [Info] returns a snapshot (and a nil error) exactly when the seven
    readers it insists on succeed: CPU core count, CPU info, disk
    partitions, disk IO counters, host identity, virtual memory and swap
    memory.  No other reader can make a pass fail. *)
Theorem Info_succeeds_iff c :
  (exists info, result (psutil.Info os c) = (Some info, None)) <-> readers_ok os.
Proof.
  split; [|apply Info_succeeds].
  intros [info Hinfo]. revert Hinfo. unfold readers_ok, result.
  info_cases os; intros Hinfo; simplify_eq.
  all: split; [intros m; destruct m; cbn|cbn].
  all: by rewrite ?Ecounts, ?Estats, ?Eparts, ?Eio, ?Ehost, ?Emem, ?Eswap.
Qed.

(** X2.  The snapshot carries, field by field, what the runtime and the
    readers answered; the two best-effort fields, swap devices and sensor
    temperatures, are empty when their reader failed and are the reader's
    answer otherwise. *)
Theorem Info_snapshot_fields c info :
  result (psutil.Info os c) = (Some info, None) ->
  psutil.GoInfo_ info =
    {| psutil.GOOS := runtime_GOOS os; psutil.GOARCH := runtime_GOARCH os;
       psutil.NumCPU := runtime_NumCPU os; psutil.Version := runtime_Version os |} /\
  psutil.CPUCores info = (cpu_Counts os).1 /\
  psutil.CPUInfo info = (cpu_Info os).1 /\
  psutil.IOCounters info = (disk_IOCounters os).1 /\
  psutil.HostInfo info = (host_Info os).1 /\
  psutil.MemInfo info = (mem_VirtualMemory os).1 /\
  psutil.SwapInfo info = (mem_SwapMemory os).1 /\
  psutil.SwapDevices info =
    (if (mem_SwapDevices os).2 is Some _ then [] else (mem_SwapDevices os).1) /\
  psutil.SensorTemperatures info =
    (if (sensors_SensorsTemperatures os).2 is Some _ then []
     else (sensors_SensorsTemperatures os).1).
Proof.
  unfold result. info_cases os; intros Hinfo; simplify_eq; cbn.
  all: rewrite ?Ecounts, ?Estats, ?Eio, ?Ehost, ?Emem, ?Eswap, ?Eswapdev, ?Etemps; cbn.
  all: by repeat split.
Qed.

(** X3.  A pass that succeeds logs nothing but the warnings of the two
    best-effort readers: one for swap devices if that reader failed, then
    one for sensor temperatures if that reader failed, each with the
    reader's error. *)
Theorem Info_warnings c :
  readers_ok os ->
  logs (events (psutil.Info os c)) =
    (if (mem_SwapDevices os).2 is Some e
     then [Log WarnLevel [Err e] "Failed to get swap devices"] else []) ++
    (if (sensors_SensorsTemperatures os).2 is Some e
     then [Log WarnLevel [Err e] "Failed to get sensor temperatures"] else []).
Proof.
  assert (Hu : forall parts : list disk_PartitionStat,
    List.filter is_log ((λ p, Call "disk.Usage" [Mountpoint p]) <$> parts) = []).
  { induction parts as [|p parts IH]; [done|]. apply IH. }
  intros [Hm Hswap].
  pose proof (Hm CpuCoreCount) as H0. pose proof (Hm CpuInfo) as H1.
  pose proof (Hm DiskPartitions) as H2. pose proof (Hm DiskIOCounters) as H3.
  pose proof (Hm HostIdentity) as H4. pose proof (Hm VirtualMemory) as H5.
  clear Hm. cbn in *. unfold logs, events.
  info_cases os; cbn in *; simplify_eq.
  all: rewrite ?Eswapdev, ?Etemps; by rewrite List.filter_app, Hu.
Qed.


(** X5.  A pass that fails stops at the failing reader: when the reader of
    a mandatory subsystem is the first to fail, its call is the last event
    of the pass, and the pass has logged nothing. *)
Theorem Info_stops_at_failure (m : Mandatory) (e : string) c :
  reader_err os m = Some e ->
  (forall m', (rank m' < rank m)%nat -> reader_err os m' = None) ->
  last (events (psutil.Info os c)) = Some (reader_call m) /\
  logs (events (psutil.Info os c)) = [].
Proof.
  assert (Hu : forall parts : list disk_PartitionStat,
    List.filter is_log ((λ p, Call "disk.Usage" [Mountpoint p]) <$> parts) = []).
  { induction parts as [|p parts IH]; [done|]. apply IH. }
  intros Hm Hfirst.
  pose proof (Hfirst CpuCoreCount) as H0. pose proof (Hfirst CpuInfo) as H1.
  pose proof (Hfirst DiskPartitions) as H2. pose proof (Hfirst DiskIOCounters) as H3.
  pose proof (Hfirst HostIdentity) as H4. pose proof (Hfirst VirtualMemory) as H5.
  clear Hfirst. unfold events, logs.
  destruct m; cbn in *; info_cases os; cbn in *; simplify_eq;
    try (by (discriminate H0; lia)); try (by (discriminate H1; lia));
    try (by (discriminate H2; lia)); try (by (discriminate H3; lia));
    try (by (discriminate H4; lia)); try (by (discriminate H5; lia));
    try done.
  all: split; [|by rewrite List.filter_app, Hu].
  all: by rewrite app_comm_cons, last_app.
Qed.

(** X6.  In a snapshot the partition entries and the usage queries of the
    pass correspond one to one and in order: the entries are for the
    partitions without the marker, in the order of the partitions reader;
    each entry holds what [disk.Usage] answered for the mount point of
    its own partition; and the mount points queried are those of the
    entries. *)
Theorem Info_entries_match_queries c info :
  result (psutil.Info os c) = (Some info, None) ->
  psutil.Partition <$> psutil.Partitions info =
    filter (λ p, ¬ nobrowse p) (disk_Partitions os).1 /\
  Forall (λ pu, (psutil.Usage pu, psutil.UsageErr pu) =
                disk_Usage os (Mountpoint (psutil.Partition pu)))
         (psutil.Partitions info) /\
  usage_queries (events (psutil.Info os c)) =
    (λ pu, Mountpoint (psutil.Partition pu)) <$> psutil.Partitions info.
Proof.
  intros Hinfo.
  assert (Hparts := Info_Partitions os c info). rewrite Hinfo in Hparts.
  specialize (Hparts eq_refl). rewrite Hparts. split; [|split].
  - rewrite <- list_fmap_compose. apply list_fmap_id.
  - apply Forall_fmap, Forall_forall. intros p _. cbn.
    by destruct (disk_Usage os (Mountpoint p)).
  - rewrite <- list_fmap_compose.
    revert Hinfo. unfold result, events. info_cases os; intros; simplify_eq.
    all: rewrite ?usage_queries_app, ?usage_queries_of_calls; cbn; apply app_nil_r.
Qed.
End assembler_more.

(** * Further properties of the process around the pass *)

Section process_more.
Context `{GopsutilTypes} (os : Env).

(** X7.  [IsSudo] answers true exactly when SUDO_USER is set or the
    current user can be looked up and has the numeric uid 0; a failing
    lookup or a uid that is not a number gives false, never an error.
    When SUDO_USER is set the user database is not consulted. *)
Theorem IsSudo_iff c :
  (result (system.IsSudo os c) = true <->
   os_Getenv os "SUDO_USER" ≠ "" \/
   exists u, user_Current os = inl u /\ strconv_Atoi os (Uid u) = (0, None)) /\
  (os_Getenv os "SUDO_USER" ≠ "" ->
   events (system.IsSudo os c) = [Call "os.Getenv" ["SUDO_USER"]]).
Proof.
  unfold system.IsSudo, result, events. run_go.
  destruct (String.eqb_spec (os_Getenv os "SUDO_USER") "") as [Hempty|Hset]; cbn.
  - split; [|done]. destruct (user_Current os) as [u|err]; cbn.
    + destruct (strconv_Atoi os (Uid u)) as [uid [e|]] eqn:Hatoi; cbn.
      * split; [done|]. intros [?|(u' & ? & ?)]; simplify_eq; congruence.
      * destruct (Z.eqb_spec uid 0) as [->|Hne].
        -- split; [|done]. intros _. right. by exists u.
        -- split; [done|]. intros [?|(u' & ? & ?)]; simplify_eq; congruence.
    + split; [done|]. intros [?|(u' & ? & ?)]; simplify_eq; congruence.
  - split; [|done]. split; [by left|done].
Qed.

(** X8.  Once the logger is open, [Run] logs two lines before anything
    else is logged.  The first names the user and says whether the
    process is privileged: under sudo with SUDO_USER set it names the
    original user, otherwise the current user, or the text of the lookup
    error when the lookup failed; its message agrees with its "sudo"
    field.  The second gives the interval and the duration. *)
Theorem startup_logs (a : core.App) c :
  os_Create os (core.LogFile (core.config a)) = None ->
  let isSudo := result (system.IsSudo os c) in
  let sudoUser := os_Getenv os "SUDO_USER" in
  let current := match user_Current os with inl u => Username u | inr err => err end in
  logs (events (core.startup os a c)) =
    [Log InfoLevel
       [Str "user" (if isSudo && negb (String.eqb sudoUser "") then sudoUser else current);
        Bool "sudo" isSudo]
       (if isSudo then "Running with sudo privileges" else "Running as regular user");
     Log InfoLevel
       [Dur "interval" (core.Interval (core.config a));
        Dur "duration" (core.Duration (core.config a))]
       "Collection interval and duration"].
Proof.
  intros Hlog. cbn zeta.
  unfold core.startup, system.IsSudo, system.GetCurrentUser, system.GetSudoUser,
    logs, result, events. run_go. rewrite Hlog.
  destruct (String.eqb (os_Getenv os "SUDO_USER") ""); cbn; [|done].
  destruct (user_Current os) as [u|err]; cbn; [|done].
  destruct (strconv_Atoi os (Uid u)) as [uid [e|]]; cbn; [done|].
  by destruct (uid =? 0).
Qed.

Lemma printed_app (xs ys : list Event) : printed (xs ++ ys) = printed xs ++ printed ys.
Proof.
  induction xs as [|e xs IH]; [done|].
  destruct e; cbn; by rewrite ?IH.
Qed.

Lemma printed_startup (evs : list Event) :
  Forall (λ e, is_startup_event e = true) evs -> printed evs = [].
Proof. induction 1 as [|e evs He _ IH]; [done|]. by destruct e. Qed.

Lemma Info_prints_nothing c : printed (events (psutil.Info os c)) = [].
Proof.
  assert (Hu : forall parts : list disk_PartitionStat,
    printed ((λ p, Call "disk.Usage" [Mountpoint p]) <$> parts) = []).
  { induction parts as [|p parts IH]; [done|]. apply IH. }
  unfold events. info_cases os; try done.
  all: by rewrite printed_app, Hu.
Qed.

(** X9.  [Run] of app.go prints at most one document: the indented JSON
    encoding of the snapshot the pass returned, when the logger opened,
    the pass succeeded and the encoding succeeded; in every other case it
    prints nothing. *)
Theorem Run_prints (a : core.App) c :
  printed (events (core.Run os a c)) =
    match os_Create os (core.LogFile (core.config a)), result (psutil.Info os c) with
    | None, (sysInfo, None) =>
        match json_MarshalIndent os _ sysInfo with
        | (json, None) => [json]
        | (_, Some _) => []
        end
    | _, _ => []
    end.
Proof.
  rewrite Run_unfold.
  destruct (startup_spec os a c) as (_ & _ & Hst).
  destruct (os_Create os _) as [e|]; rewrite events_mk.
  - by apply printed_startup.
  - rewrite !printed_app, (printed_startup _ Hst), Info_prints_nothing.
    destruct (result (psutil.Info os c)) as [sysInfo [e|]]; [done|].
    by destruct (json_MarshalIndent os _ sysInfo) as [json [e|]].
Qed.

(** X10.  When the log file cannot be created nothing else is attempted:
    [Run] returns the error of [os.Create] having made that call only (no
    privilege lookup, no log line, no pass), and the process ends with
    status 1 without a line written: the [Fatal] call of [main] finds
    [utils.Log] unassigned. *)
Theorem logger_failure_stops_run (name : string) (cfg : core.Config) (e : string) c :
  os_Create os (core.LogFile cfg) = Some e ->
  core.Run os (core.New name cfg) c = (Some e, [Call "os.Create" [core.LogFile cfg]], c) /\
  (forall fl, result (config.ParseFlags os fl c) = Returned (cfg, None) ->
     main_.main os fl c = (1, [Call "os.Create" [core.LogFile cfg]], c)).
Proof.
  intros Hlog.
  assert (Hrun : forall name', core.Run os (core.New name' cfg) c =
                   (Some e, [Call "os.Create" [core.LogFile cfg]], c)).
  { intros name'. rewrite Run_unfold. cbn [core.config core.New]. rewrite Hlog.
    unfold core.startup, events. run_go. cbn [core.config core.New]. by rewrite Hlog. }
  split; [apply Hrun|].
  intros fl Hfl%ParseFlags_valid. unfold main_.main, bind. rewrite Hfl, Hrun.
  run_go. by rewrite Hlog.
Qed.

(** Once [flag.Parse] has filled the variables the status is 0 or 1, and 0
    exactly when help was requested, or interval and duration are positive
    and the log file could be created. *)
Lemma main_status_parsed (fl : config.Flags) c :
  (result (main_.main os fl c) = 0 \/ result (main_.main os fl c) = 1) /\
  (result (main_.main os fl c) = 0 <->
   config.help fl = true \/
   (0 < config.interval fl /\ 0 < config.duration fl /\
    os_Create os (config.logFile fl) = None)).
Proof.
  destruct (config.help fl) eqn:Hhelp;
    [|destruct (Z.leb_spec (config.interval fl) 0);
      [|destruct (Z.leb_spec (config.duration fl) 0)]].
  1-3: unfold main_.main, config.ParseFlags, result; run_go; rewrite Hhelp; cbn.
  - split; [by left|]. split; [by left|done].
  - destruct (Z.leb_spec (config.interval fl) 0); [|lia]. cbn.
    split; [by right|]. split; [done|]. intros [?|(? & _)]; [done|lia].
  - destruct (Z.leb_spec (config.interval fl) 0); [lia|].
    destruct (Z.leb_spec (config.duration fl) 0); [|lia]. cbn.
    split; [by right|]. split; [done|]. intros [?|(_ & ? & _)]; [done|lia].
  - destruct (main_valid os fl
      {| core.Interval := config.interval fl; core.Duration := config.duration fl;
         core.LogFile := config.logFile fl; core.LogToStdout := config.logToStdout fl |} c)
      as [-> _].
    { unfold config.ParseFlags, result. run_go. rewrite Hhelp.
      destruct (Z.leb_spec (config.interval fl) 0); [lia|].
      by destruct (Z.leb_spec (config.duration fl) 0); [lia|]. }
    cbn [core.LogFile].
    destruct (os_Create os (config.logFile fl)) as [e|].
    + split; [by right|]. split; [done|]. intros [?|(_ & _ & ?)]; done.
    + split; [by left|]. split; [|done]. intros _. right. by repeat split.
Qed.

(** The passes of a process whose command line [flag.Parse] accepted. *)
Lemma main_passes_parsed (fl : config.Flags) c :
  passes (events (main_.main os fl c)) =
    if bool_decide (config.help fl = false /\ 0 < config.interval fl /\
                    0 < config.duration fl /\ os_Create os (config.logFile fl) = None)
    then 1%nat else 0%nat.
Proof.
  destruct (config.help fl) eqn:Hhelp;
    [|destruct (Z.leb_spec (config.interval fl) 0);
      [|destruct (Z.leb_spec (config.duration fl) 0)]].
  1-3: unfold main_.main, config.ParseFlags, events; run_go; rewrite Hhelp; cbn.
  - by rewrite bool_decide_eq_false_2 by (intros (? & _); done).
  - destruct (Z.leb_spec (config.interval fl) 0); [|lia]. cbn.
    by rewrite bool_decide_eq_false_2 by (intros (_ & ? & _); lia).
  - destruct (Z.leb_spec (config.interval fl) 0); [lia|].
    destruct (Z.leb_spec (config.duration fl) 0); [|lia]. cbn.
    by rewrite bool_decide_eq_false_2 by (intros (_ & _ & ? & _); lia).
  - destruct (main_valid os fl
      {| core.Interval := config.interval fl; core.Duration := config.duration fl;
         core.LogFile := config.logFile fl; core.LogToStdout := config.logToStdout fl |} c)
      as [_ ->].
    { unfold config.ParseFlags, result. run_go. rewrite Hhelp.
      destruct (Z.leb_spec (config.interval fl) 0); [lia|].
      by destruct (Z.leb_spec (config.duration fl) 0); [lia|]. }
    destruct (os_Create os (config.logFile fl)) as [e|] eqn:Hlog.
    + rewrite bool_decide_eq_false_2 by (intros (_ & _ & _ & ?); done).
      rewrite Run_unfold. cbn [core.config core.New core.LogFile]. rewrite Hlog, events_mk.
      destruct (startup_spec os (core.New "tinytop"
        {| core.Interval := config.interval fl; core.Duration := config.duration fl;
           core.LogFile := config.logFile fl; core.LogToStdout := config.logToStdout fl |}) c)
        as (_ & _ & Hst).
      by apply (startup_events_calls "psutil.Info").
    + rewrite bool_decide_eq_true_2 by done.
      by apply Run_one_pass.
Qed.

(** X11.  A process that is not killed from outside ends with status 0, 1
    or 2: with 2 exactly when [flag.Parse] rejects the command line, and
    with 0 exactly when the command line is accepted and either help was
    requested, or interval and duration are positive and the log file
    could be created.  No failure of a pass or of the JSON encoding
    changes the exit status. *)
Theorem process_exit_status (parsed : option config.Flags) c :
  (result (main_.main_argv os parsed c) = 0 \/
   result (main_.main_argv os parsed c) = 1 \/
   result (main_.main_argv os parsed c) = 2) /\
  (result (main_.main_argv os parsed c) = 2 <-> parsed = None) /\
  (result (main_.main_argv os parsed c) = 0 <->
   exists fl, parsed = Some fl /\
     (config.help fl = true \/
      (0 < config.interval fl /\ 0 < config.duration fl /\
       os_Create os (config.logFile fl) = None))).
Proof.
  destruct parsed as [fl|].
  - change (main_.main_argv os (Some fl) c) with (main_.main os fl c).
    destruct (main_status_parsed fl c) as [Hor Hiff].
    split; [destruct Hor as [-> | ->]; auto|]. split.
    + split; [|done]. destruct Hor as [-> | ->]; done.
    + rewrite Hiff. split; [intros ?; by exists fl|]. by intros (fl' & [= <-] & ?).
  - unfold main_.main_argv, config.ParseFlags_argv, result. run_go. cbn.
    split; [auto|]. split; [done|]. split; [done|]. by intros (fl & ? & _).
Qed.

(** X12.  The process makes at most one pass, and it makes one exactly when
    the command line is accepted, help was not requested, interval and
    duration are positive and the log file could be created. *)
Theorem process_passes (parsed : option config.Flags) c :
  (passes (events (main_.main_argv os parsed c)) <= 1)%nat /\
  (passes (events (main_.main_argv os parsed c)) = 1%nat <->
   exists fl, parsed = Some fl /\
     config.help fl = false /\ 0 < config.interval fl /\ 0 < config.duration fl /\
     os_Create os (config.logFile fl) = None).
Proof.
  destruct parsed as [fl|].
  - change (main_.main_argv os (Some fl) c) with (main_.main os fl c).
    rewrite main_passes_parsed. case_bool_decide as Hvalid.
    + split; [done|]. split; [by exists fl|done].
    + split; [lia|]. split; [done|]. intros (fl' & [= <-] & ?). done.
  - unfold main_.main_argv, config.ParseFlags_argv, events. run_go. cbn.
    split; [lia|]. split; [done|]. by intros (fl & ? & _).
Qed.

(** X13.  A [Config] that [ParseFlags] returns with a nil error satisfies
    the invariant of the scheduler, interval > 0 and duration > 0, and
    holds the values of the flags unchanged; [ParseFlags] has then made no
    call and help was not requested. *)
Theorem ParseFlags_config_invariant (fl : config.Flags) (cfg : core.Config) c :
  result (config.ParseFlags os fl c) = Returned (cfg, None) ->
  0 < core.Interval cfg /\ 0 < core.Duration cfg /\
  cfg = {| core.Interval := config.interval fl; core.Duration := config.duration fl;
           core.LogFile := config.logFile fl; core.LogToStdout := config.logToStdout fl |} /\
  config.help fl = false /\
  events (config.ParseFlags os fl c) = [].
Proof.
  unfold config.ParseFlags, result, events. run_go.
  destruct (config.help fl); cbn; [done|].
  destruct (Z.leb_spec (config.interval fl) 0); cbn; [done|].
  destruct (Z.leb_spec (config.duration fl) 0); cbn; [done|].
  intros [= <-]. by repeat split.
Qed.
End process_more.

(** * Further properties of the loop revision *)

Section loop_more.
Context `{GopsutilTypes} (os : Env).

Lemma polls_sleep_until currentTime c :
  polls (events (time_.sleep_until os currentTime c)) = [].
Proof.
  rewrite sleep_until_eq. cbn zeta. rewrite events_mk.
  by destruct (match cancel_at os with Some _ => _ | None => false end).
Qed.

Lemma tick_loop_turn_bound fuel interval endTime currentTime c :
  0 < interval ->
  let n := Z.of_nat (length (polls (events
             (core0.tick_loop os fuel interval endTime currentTime c)))) in
  n = 0 \/ (n - 1) * interval < endTime - currentTime.
Proof.
  intros Hi. revert currentTime c. induction fuel as [|fuel IH]; intros ct c; [by left|].
  cbn zeta. rewrite tick_loop_step.
  destruct (Z.ltb_spec ct endTime); [|by left].
  rewrite poll_Done_eq. cbn zeta.
  destruct (time_.Done_ready os _); [rewrite events_mk; cbn; right; lia|].
  destruct (endTime <? ct + interval); [rewrite events_mk; cbn; right; lia|].
  rewrite Now_eq. destruct (endTime <? _); [rewrite events_mk; cbn; right; lia|].
  cbn [now reads].
  pose proof (polls_sleep_until (ct + interval)
    {| now := now c + Z.of_N (elapse os (reads c)) + Z.of_N (elapse os (S (reads c)));
       reads := S (S (reads c)) |}) as Hsleep.
  cbn [now reads] in *.
  destruct (time_.sleep_until os _ _) as [[[] sev] c3];
    unfold events in *; cbn [fst snd] in *.
  { rewrite polls_app, Hsleep. cbn. right. lia. }
  specialize (IH (ct + interval) c3). cbn zeta in IH.
  destruct (core0.tick_loop os fuel _ _ _ c3) as [[r evs] c4]. cbn [fst snd] in *.
  rewrite !polls_app, Hsleep. cbn [polls app length].
  right. lia.
Qed.

(** X14.  Whatever the clock and the cancellation do, the loop of the loop
    revision takes at most ceil(duration / interval) turns when the
    interval is positive: if it takes n >= 1 turns then
    (n - 1) * interval < duration. *)
Theorem Run0_turn_bound fuel (a : core.App) c :
  0 < core.Interval (core.config a) ->
  let n := Z.of_nat (length (polls (events (core0.Run os fuel a c)))) in
  n = 0 \/ (n - 1) * core.Interval (core.config a) < core.Duration (core.config a).
Proof.
  intros Hi. cbn zeta. rewrite Run0_unfold.
  destruct (startup_spec os a c) as (_ & _ & Hst).
  destruct (log_static_info_spec os c) as (_ & Hsi & _).
  destruct (os_Create os _) as [e|]; cbn zeta; rewrite events_mk.
  { left. by rewrite (no_tick_polls _ (startup_events_no_tick _ Hst)). }
  rewrite !polls_app. cbn [polls].
  rewrite (no_tick_polls _ (startup_events_no_tick _ Hst)).
  rewrite (no_tick_polls _ (static_events_no_tick _ Hsi)). cbn [app].
  match goal with |- context [core0.tick_loop os fuel ?i ?e ?t ?c'] =>
    destruct (tick_loop_turn_bound fuel i e t c' Hi) as [Hz|Hb]
  end; [by left|right]. lia.
Qed.

(** X15.  A cancellation that is already pending when the run starts is
    observed at the first checkpoint: if the loop is entered at all, [Run]
    returns nil after a single poll and without waiting. *)
Theorem Run0_cancelled_at_start fuel (a : core.App) (cc : Z) c :
  os_Create os (core.LogFile (core.config a)) = None ->
  cancel_at os = Some cc ->
  cc <= now c ->
  Z.of_N (elapse os (S (reads c))) < core.Duration (core.config a) ->
  let r := core0.Run os (S fuel) a c in
  let p := now c + Z.of_N (elapse os (reads c)) + Z.of_N (elapse os (S (reads c)))
           + Z.of_N (elapse os (S (S (reads c)))) in
  result r = Some None /\
  polls (events r) = [p] /\
  sleeps (events r) = 0%nat /\
  last (events r) = Some (Cancelled p).
Proof.
  intros Hlog Hcc Hpending Hentered. cbn zeta. rewrite Run0_unfold, Hlog. cbn zeta.
  destruct (startup_spec os a c) as (_ & _ & Hst).
  destruct (log_static_info_spec os c) as (_ & Hsi & _).
  rewrite tick_loop_step.
  destruct (Z.ltb_spec
    (now c + Z.of_N (elapse os (reads c)) + Z.of_N (elapse os (S (reads c))))
    (now c + Z.of_N (elapse os (reads c)) + core.Duration (core.config a))); [|lia].
  rewrite poll_Done_eq. cbn zeta. cbn [now reads]. unfold time_.Done_ready. rewrite Hcc.
  destruct (Z.leb_spec cc (now c + Z.of_N (elapse os (reads c))
             + Z.of_N (elapse os (S (reads c))) + Z.of_N (elapse os (S (S (reads c))))));
    [|lia].
  rewrite result_mk, events_mk. split; [done|].
  assert (Hsl : forall evs, Forall (λ e, is_tick e = false) evs -> sleeps evs = 0%nat).
  { induction 1 as [|e evs He _ IH]; [done|]. by destruct e. }
  split; [|split].
  - rewrite !polls_app. cbn [polls].
    rewrite (no_tick_polls _ (startup_events_no_tick _ Hst)).
    by rewrite (no_tick_polls _ (static_events_no_tick _ Hsi)).
  - unfold sleeps in *. rewrite !List.filter_app, !length_app.
    rewrite (Hsl _ (startup_events_no_tick _ Hst)).
    by rewrite (Hsl _ (static_events_no_tick _ Hsi)).
  - by rewrite !last_app.
Qed.

(** X16.  A cancellation that arrives during the first wait ends the run
    there: when the first checkpoint is passed before the cancellation
    and the cancellation comes before the next tick, [Run] returns nil
    after one poll, observing the cancellation at the instant it arrives
    (or at the instant the wait begins, if that is later), and the run
    ends before the next tick.  Instants are readings of the runtime's
    monotonic clock, and the end of the run lies within its int64 range,
    so that the timer of the wait is due exactly at the next tick. *)
Theorem Run0_cancelled_in_wait fuel (a : core.App) (cc : Z) c :
  os_Create os (core.LogFile (core.config a)) = None ->
  cancel_at os = Some cc ->
  0 <= now c ->
  now c + Z.of_N (elapse os (reads c)) + core.Duration (core.config a) <= max_int64 ->
  let t0 := now c + Z.of_N (elapse os (reads c)) in
  let tick := t0 + Z.of_N (elapse os (S (reads c))) in
  let p := tick + Z.of_N (elapse os (S (S (reads c)))) in
  let t := p + Z.of_N (elapse os (S (S (S (reads c))))) in
  let u := t + Z.of_N (elapse os (S (S (S (S (reads c)))))) in
  let next := tick + core.Interval (core.config a) in
  let endTime := t0 + core.Duration (core.config a) in
  next <= endTime ->
  t <= endTime ->
  p < cc ->
  cc < next ->
  u < next ->
  let r := core0.Run os (S fuel) a c in
  result r = Some None /\
  polls (events r) = [p] /\
  last (events r) = Some (Cancelled (Z.max u cc)) /\
  now (clock_of r) = Z.max u cc /\
  now (clock_of r) < next.
Proof.
  intros Hlog Hcc _ _ t0 tick p t u next endTime Hnext Ht Hp Hcc' Hu. cbn zeta.
  rewrite Run0_unfold, Hlog. cbn zeta. fold t0 tick endTime.
  destruct (startup_spec os a c) as (_ & _ & Hst).
  destruct (log_static_info_spec os c) as (_ & Hsi & _).
  rewrite tick_loop_step.
  destruct (Z.ltb_spec tick endTime); [|lia].
  rewrite poll_Done_eq. cbn zeta. cbn [now reads]. fold p.
  unfold time_.Done_ready. rewrite Hcc.
  destruct (Z.leb_spec cc p); [lia|]. fold next.
  destruct (Z.ltb_spec endTime next); [lia|].
  rewrite Now_eq. cbn [now reads]. fold t.
  destruct (Z.ltb_spec endTime t); [lia|].
  rewrite sleep_until_eq. cbn zeta. cbn [now reads]. fold u. rewrite Hcc. cbn [default].
  destruct (Z.ltb_spec (Z.max u cc) (u + Z.max (next - u) 0)); [|lia].
  cbn [orb]. unfold id. rewrite result_mk, events_mk.
  split; [done|]. split; [|split; [|split]]; rewrite ?clock_of_mk; cbn [now].
  - rewrite !polls_app. cbn [polls].
    rewrite (no_tick_polls _ (startup_events_no_tick _ Hst)).
    by rewrite (no_tick_polls _ (static_events_no_tick _ Hsi)).
  - by rewrite !last_app.
  - lia.
  - lia.
Qed.

Lemma logs_log_cpuInfos (cpuInfos : list cpu_InfoStat) i c :
  length (logs (events (core0.log_cpuInfos os i cpuInfos c))) = length cpuInfos.
Proof.
  revert i. induction cpuInfos as [|cpuInfo rest IH]; intros i; [done|].
  cbn [core0.log_cpuInfos]. specialize (IH (S i)).
  unfold events, logs in *.
  destruct (json_Marshal os _ cpuInfo) as [json [e|]]; run_go;
    destruct (core0.log_cpuInfos os (S i) rest c) as [[[] evs] c1];
    cbn [fst snd] in *; cbn; by rewrite IH.
Qed.

(** X17.  Logging the static information never stops: [host.Info] and
    [cpu.Info] are each read exactly once, whatever the other answers;
    there is one log line about the host, and one log line per processor
    when [cpu.Info] succeeds (also for a processor whose encoding fails)
    or one line about the failure of [cpu.Info]. *)
Theorem log_static_info_lines c :
  calls "host.Info" (events (core0.log_static_info os c)) = 1%nat /\
  calls "cpu.Info" (events (core0.log_static_info os c)) = 1%nat /\
  length (logs (events (core0.log_static_info os c))) =
    S (if (cpu_Info os).2 is Some _ then 1 else length (cpu_Info os).1).
Proof.
  destruct (log_static_info_spec os c) as (_ & _ & Hhost & Hcpu).
  split; [done|]. split; [done|]. clear Hhost Hcpu.
  unfold core0.log_static_info, events, logs. run_go.
  destruct (host_Info os) as [info [e|]]; cbn [fst snd];
    [|destruct (json_Marshal os _ info) as [json [e|]]; cbn [fst snd]].
  all: destruct (cpu_Info os) as [cpuInfos [e'|]]; cbn [fst snd]; [done|].
  all: pose proof (logs_log_cpuInfos cpuInfos 0 c) as Hlen; unfold events, logs in Hlen.
  all: destruct (core0.log_cpuInfos os 0 cpuInfos c) as [[[] evs] c1]; cbn [fst snd] in *.
  all: cbn; by rewrite Hlen.
Qed.

Lemma tick_loop_more_fuel fuel interval endTime currentTime c :
  result (core0.tick_loop os fuel interval endTime currentTime c) ≠ None ->
  core0.tick_loop os (S fuel) interval endTime currentTime c =
  core0.tick_loop os fuel interval endTime currentTime c.
Proof.
  revert currentTime c. induction fuel as [|fuel IH]; intros ct c; [done|].
  rewrite (tick_loop_step os (S fuel)), (tick_loop_step os fuel).
  destruct (ct <? endTime); [|done].
  destruct (time_.poll_Done os c) as [[[] pev] c1]; [done|].
  destruct (endTime <? ct + interval); [done|].
  destruct (time_.Now os c1) as [[t nev] c2].
  destruct (endTime <? t); [done|].
  destruct (time_.sleep_until os _ c2) as [[[] sev] c3]; [done|].
  specialize (IH (ct + interval) c3).
  destruct (core0.tick_loop os fuel _ _ _ c3) as [[r evs] c4] eqn:Hloop.
  rewrite result_mk in *. intros Hr. by rewrite (IH Hr).
Qed.

(** X18.  With a positive interval, [Run] of the loop revision returns, and
    it returns nil unless the logger could not be opened: no answer of
    [host.Info], [cpu.Info] or the JSON encoder, and no cancellation,
    makes it return an error.  [fuel_for] turns of fuel are enough, and
    more fuel changes nothing of the run. *)
Theorem Run0_total fuel (a : core.App) c :
  0 < core.Interval (core.config a) ->
  (fuel_for (core.config a) <= fuel)%nat ->
  result (core0.Run os fuel a c) = Some (os_Create os (core.LogFile (core.config a))) /\
  core0.Run os fuel a c = core0.Run os (fuel_for (core.config a)) a c.
Proof.
  intros Hi Hfuel. split; [by apply Run0_returns|].
  induction Hfuel as [|fuel Hfuel IH]; [done|]. rewrite <- IH.
  pose proof (Run0_returns os fuel a c Hi Hfuel) as Hres. revert Hres.
  rewrite !Run0_unfold.
  destruct (os_Create os _) as [e|]; [done|]. cbn zeta. rewrite result_mk.
  intros Hres. rewrite tick_loop_more_fuel; [done|]. by rewrite Hres.
Qed.
Lemma tick_loop_pacing fuel interval endTime currentTime c :
  currentTime <= now c ->
  (forall (k : nat) p,
     polls (events (core0.tick_loop os fuel interval endTime currentTime c)) !! k = Some p ->
     currentTime + Z.of_nat k * interval <= p) /\
  (forall d, Sleep d ∈ events (core0.tick_loop os fuel interval endTime currentTime c) ->
     d <= interval).
Proof.
  revert currentTime c. induction fuel as [|fuel IH]; intros ct c Hclock.
  { split; [done|]. by intros d ?%elem_of_nil. }
  rewrite tick_loop_step.
  destruct (ct <? endTime); [|split; [done|by intros d ?%elem_of_nil]].
  rewrite poll_Done_eq. cbn zeta.
  set (p0 := now c + Z.of_N (elapse os (reads c))).
  assert (Hp0 : ct <= p0) by (subst p0; lia).
  assert (Hone : forall tl : list Event, polls tl = [] ->
            (forall d, Sleep d ∈ tl -> d <= interval) ->
            (forall (k : nat) p, polls (Poll p0 :: tl) !! k = Some p ->
               ct + Z.of_nat k * interval <= p) /\
            (forall d, Sleep d ∈ Poll p0 :: tl -> d <= interval)).
  { intros tl Htl Hsl. split.
    - cbn [polls]. rewrite Htl. intros [|k] p; [|done]. intros [= <-]. lia.
    - intros d [?|Hin]%elem_of_cons; [done|]. by apply Hsl. }
  destruct (time_.Done_ready os _).
  { rewrite events_mk. apply Hone; [done|].
    intros d Hin. apply list_elem_of_singleton in Hin. done. }
  destruct (endTime <? ct + interval).
  { rewrite events_mk. apply Hone; [done|]. by intros d ?%elem_of_nil. }
  rewrite Now_eq. cbn [now reads]. destruct (endTime <? _).
  { rewrite events_mk. apply Hone; [done|]. by intros d ?%elem_of_nil. }
  rewrite sleep_until_eq. cbn zeta. cbn [now reads].
  set (u := p0 + Z.of_N (elapse os (S (reads c))) + Z.of_N (elapse os (S (S (reads c))))).
  assert (Hd : ct + interval - u <= interval) by (subst u; lia).
  destruct (match cancel_at os with Some _ => _ | None => false end).
  { rewrite events_mk. apply Hone; [done|].
    intros d Hin. repeat (apply elem_of_cons in Hin as [Hin|Hin]; [by simplify_eq|]).
    by apply elem_of_nil in Hin. }
  match goal with |- context [core0.tick_loop os fuel ?i ?e ?t' ?c'] =>
    destruct (IH t' c') as [IHp IHs]; [cbn [now]; lia|];
    destruct (core0.tick_loop os fuel i e t' c') as [[r evs] c4]
  end.
  rewrite events_mk in *. cbn [app polls]. split.
  - intros [|k] p; cbn.
    + intros [= <-]. lia.
    + intros Hk. specialize (IHp k p Hk). lia.
  - intros d Hin. repeat (apply elem_of_cons in Hin as [Hin|Hin]; [by simplify_eq|]).
    by apply IHs.
Qed.

(** X19.  A turn never starts before its tick, and a wait never exceeds one
    interval: counting ticks from the clock reading that sets
    [currentTime], the k-th poll of the loop happens at or after tick
    k * interval (a slow turn delays the following ones, it never makes
    them early), and every timer is set for at most one interval.
    Instants are readings of the runtime's monotonic clock, and the end of
    the run lies within its int64 range, so that no timer of the run is
    due later than the clock can tell. *)
Theorem Run0_pacing fuel (a : core.App) c :
  0 <= now c ->
  now c + Z.of_N (elapse os (reads c)) + core.Duration (core.config a) <= max_int64 ->
  let tick0 := now c + Z.of_N (elapse os (reads c)) + Z.of_N (elapse os (S (reads c))) in
  (forall (k : nat) p, polls (events (core0.Run os fuel a c)) !! k = Some p ->
     tick0 + Z.of_nat k * core.Interval (core.config a) <= p) /\
  (forall d, Sleep d ∈ events (core0.Run os fuel a c) -> d <= core.Interval (core.config a)).
Proof.
  intros _ _. cbn zeta. rewrite Run0_unfold.
  destruct (startup_spec os a c) as (_ & _ & Hst).
  destruct (log_static_info_spec os c) as (_ & Hsi & _).
  pose proof (startup_events_no_tick _ Hst) as Hst'.
  pose proof (static_events_no_tick _ Hsi) as Hsi'.
  destruct (os_Create os _) as [e|]; cbn zeta; rewrite events_mk.
  { rewrite (no_tick_polls _ Hst'). split; [done|].
    intros d Hin. rewrite Forall_forall in Hst'. by apply Hst' in Hin. }
  match goal with |- context [core0.tick_loop os fuel ?i ?e ?t ?c'] =>
    destruct (tick_loop_pacing fuel i e t c') as [Hp Hs]; [cbn [now]; lia|]
  end.
  split.
  - rewrite !polls_app. cbn [polls].
    rewrite (no_tick_polls _ Hst'), (no_tick_polls _ Hsi'). exact Hp.
  - intros d Hin. rewrite !elem_of_app, elem_of_cons in Hin.
    destruct Hin as [Hin|[Hin|[Hin|Hin]]]; [| |done|by apply Hs].
    + rewrite Forall_forall in Hst'. by apply Hst' in Hin.
    + rewrite Forall_forall in Hsi'. by apply Hsi' in Hin.
Qed.
End loop_more.

Section process_logs.
Context `{GopsutilTypes} (os : Env).

Lemma Info_log_levels c lvl fields msg :
  Log lvl fields msg ∈ events (psutil.Info os c) -> lvl = WarnLevel.
Proof.
  assert (Hu : forall parts : list disk_PartitionStat,
    Log lvl fields msg ∉ (λ p, Call "disk.Usage" [Mountpoint p]) <$> parts).
  { intros parts (p & Hp & _)%list_elem_of_fmap. done. }
  unfold events. info_cases os; intros Hin.
  all: repeat (apply elem_of_cons in Hin as [Hin|Hin]; [by simplify_eq|]).
  all: try (by apply elem_of_nil in Hin).
  all: apply elem_of_app in Hin as [Hin|Hin]; [by apply Hu in Hin|].
  all: repeat (apply elem_of_cons in Hin as [Hin|Hin]; [by simplify_eq|]).
  all: by apply elem_of_nil in Hin.
Qed.

Lemma Run_log_levels (a : core.App) c lvl fields msg :
  Log lvl fields msg ∈ events (core.Run os a c) -> lvl ≠ FatalLevel.
Proof.
  rewrite Run_unfold. destruct (startup_spec os a c) as (_ & _ & Hst).
  rewrite Forall_forall in Hst.
  destruct (os_Create os _) as [e|]; rewrite events_mk.
  - intros Hin%Hst. by destruct lvl.
  - rewrite !elem_of_app. intros [Hin%Hst|[Hin%Info_log_levels|Hin]].
    + by destruct lvl.
    + by subst lvl.
    + destruct (result (psutil.Info os c)) as [sysInfo [e|]].
      * apply list_elem_of_singleton in Hin. by simplify_eq.
      * destruct (json_MarshalIndent os _ sysInfo) as [json [e|]];
          apply list_elem_of_singleton in Hin; by simplify_eq.
Qed.

Lemma main_lines_parsed (fl : config.Flags) c lvl fields msg :
  Log lvl fields msg ∈ events (main_.main os fl c) ->
  lvl ≠ FatalLevel /\
  config.help fl = false /\ 0 < config.interval fl /\ 0 < config.duration fl /\
  os_Create os (config.logFile fl) = None.
Proof.
  destruct (config.help fl) eqn:Hhelp;
    [|destruct (Z.leb_spec (config.interval fl) 0);
      [|destruct (Z.leb_spec (config.duration fl) 0)]].
  1-3: unfold main_.main, config.ParseFlags, events; run_go; rewrite Hhelp; cbn.
  - by intros ?%list_elem_of_singleton.
  - destruct (Z.leb_spec (config.interval fl) 0); [|lia]. cbn. by intros ?%elem_of_nil.
  - destruct (Z.leb_spec (config.interval fl) 0); [lia|].
    destruct (Z.leb_spec (config.duration fl) 0); [|lia]. cbn. by intros ?%elem_of_nil.
  - set (cfg := {| core.Interval := config.interval fl; core.Duration := config.duration fl;
                   core.LogFile := config.logFile fl;
                   core.LogToStdout := config.logToStdout fl |}).
    assert (Hfl : config.ParseFlags os fl c = (Returned (cfg, None), [], c)).
    { unfold config.ParseFlags. run_go. rewrite Hhelp.
      destruct (Z.leb_spec (config.interval fl) 0); [lia|].
      by destruct (Z.leb_spec (config.duration fl) 0); [lia|]. }
    unfold main_.main, bind. rewrite Hfl.
    pose proof (Run_log_levels (core.New "tinytop" cfg) c lvl fields msg) as Hrun.
    revert Hrun. rewrite Run_unfold. cbn [core.config core.New core.LogFile cfg].
    destruct (os_Create os (config.logFile fl)) as [e|] eqn:Hlog; run_go;
      rewrite ?Hlog, !events_mk; intros Hrun.
    + unfold core.startup, events. run_go. cbn [core.config core.New core.LogFile cfg].
      rewrite Hlog. cbn. intros Hin.
      repeat (apply elem_of_cons in Hin as [Hin|Hin]; [simplify_eq|]).
      by apply elem_of_nil in Hin.
    + cbn [app]. rewrite ?app_nil_r. intros Hin. specialize (Hrun Hin).
      by repeat split.
Qed.

(** X20.  The process never writes a line at fatal level: at both [Fatal]
    calls of [main] the global logger is still unassigned ([InitLogger]
    has not been called, or has failed), so they end the process without
    writing.  Every line the process writes belongs to a run whose
    command line was accepted, whose flags were valid and whose log file
    was created. *)
Theorem no_fatal_line_written (parsed : option config.Flags) c lvl fields msg :
  Log lvl fields msg ∈ events (main_.main_argv os parsed c) ->
  lvl ≠ FatalLevel /\
  exists fl, parsed = Some fl /\
    config.help fl = false /\ 0 < config.interval fl /\ 0 < config.duration fl /\
    os_Create os (config.logFile fl) = None.
Proof.
  destruct parsed as [fl|].
  - change (main_.main_argv os (Some fl) c) with (main_.main os fl c).
    intros (Hlvl & Hrest)%main_lines_parsed. split; [done|]. by exists fl.
  - unfold main_.main_argv, config.ParseFlags_argv, events. run_go. cbn.
    by intros ?%list_elem_of_singleton.
Qed.
End process_logs.

(** * The further properties at work on the concrete environments *)

Lemma Info_snapshot_fields_witness :
  exists info,
    result (psutil.Info demo_env clock0) = (Some info, None) /\
    psutil.CPUCores info = 4 /\
    psutil.SwapDevices info = [].
Proof.
  destruct (Info_succeeds demo_env clock0) as [info Hinfo].
  { split; [intros m; destruct m; reflexivity | reflexivity]. }
  exists info. split; [exact Hinfo|].
  destruct (Info_snapshot_fields demo_env clock0 info Hinfo)
    as (_ & Hcores & _ & _ & _ & _ & _ & Hswap & _).
  split; [exact Hcores | exact Hswap].
Defined.

Lemma Info_warnings_witness :
  logs (events (psutil.Info demo_env clock0)) =
    [Log WarnLevel [Err "no swap"] "Failed to get swap devices"].
Proof.
  apply (Info_warnings demo_env clock0).
  split; [intros m; destruct m; reflexivity | reflexivity].
Defined.

Lemma Info_stops_at_failure_witness :
  last (events (psutil.Info memory_failure_env clock0)) = Some (Call "mem.VirtualMemory" []).
Proof.
  destruct (Info_stops_at_failure memory_failure_env VirtualMemory "sysctl failed" clock0)
    as [Hlast _].
  - reflexivity.
  - intros m' Hrank. destruct m'; try reflexivity. exfalso. cbn in Hrank. lia.
  - exact Hlast.
Defined.

Lemma Info_entries_match_queries_witness :
  exists info,
    result (psutil.Info demo_env clock0) = (Some info, None) /\
    usage_queries (events (psutil.Info demo_env clock0)) =
      (λ pu, Mountpoint (psutil.Partition pu)) <$> psutil.Partitions info.
Proof.
  destruct (Info_succeeds demo_env clock0) as [info Hinfo].
  { split; [intros m; destruct m; reflexivity | reflexivity]. }
  exists info. split; [exact Hinfo|].
  destruct (Info_entries_match_queries demo_env clock0 info Hinfo) as (_ & _ & Hq).
  exact Hq.
Defined.

Lemma startup_logs_witness :
  logs (events (core.startup sudo_env (core.New "tinytop" config_A) clock0)) =
    [Log InfoLevel [Str "user" "alice"; Bool "sudo" true] "Running with sudo privileges";
     Log InfoLevel [Dur "interval" (100 * Millisecond); Dur "duration" (350 * Millisecond)]
       "Collection interval and duration"].
Proof. apply (startup_logs sudo_env (core.New "tinytop" config_A) clock0). reflexivity. Defined.

Lemma logger_failure_stops_run_witness :
  result (main_.main readonly_env flags_A clock0) = 1.
Proof.
  destruct (logger_failure_stops_run readonly_env "tinytop" config_A
              "open tinytop.log: read-only file system" clock0 eq_refl) as [_ Hmain].
  rewrite (Hmain flags_A eq_refl). reflexivity.
Defined.

Lemma ParseFlags_config_invariant_witness :
  0 < core.Interval config_A /\ 0 < core.Duration config_A.
Proof.
  destruct (ParseFlags_config_invariant demo_env flags_A config_A clock0 eq_refl)
    as (Hi & Hd & _).
  split; [exact Hi | exact Hd].
Defined.

Lemma Run0_turn_bound_witness :
  Z.of_nat (length (polls (events
    (core0.Run demo_env 5 (core.New "tinytop" config_A) clock0)))) = 0 \/
  (Z.of_nat (length (polls (events
     (core0.Run demo_env 5 (core.New "tinytop" config_A) clock0)))) - 1)
    * (100 * Millisecond) < 350 * Millisecond.
Proof. apply (Run0_turn_bound demo_env 5 (core.New "tinytop" config_A) clock0). reflexivity. Defined.

Lemma Run0_cancelled_at_start_witness :
  polls (events (core0.Run cancelled_env 1 (core.New "tinytop" config_C) clock0)) = [0].
Proof.
  destruct (Run0_cancelled_at_start cancelled_env 0 (core.New "tinytop" config_C) 0 clock0)
    as (_ & Hpolls & _).
  - reflexivity.
  - reflexivity.
  - discriminate.
  - reflexivity.
  - exact Hpolls.
Defined.

Lemma Run0_cancelled_in_wait_witness :
  now (clock_of (core0.Run interrupted_env 1 (core.New "tinytop" config_C) clock0))
    = 50 * Millisecond.
Proof.
  destruct (Run0_cancelled_in_wait interrupted_env 0 (core.New "tinytop" config_C)
              (50 * Millisecond) clock0) as (_ & _ & _ & Hclock & _).
  - reflexivity.
  - reflexivity.
  - discriminate.
  - discriminate.
  - discriminate.
  - discriminate.
  - reflexivity.
  - reflexivity.
  - reflexivity.
  - exact Hclock.
Defined.

Lemma Run0_total_witness :
  result (core0.Run two_cpu_env 9 (core.New "tinytop" config_A) clock0) = Some None.
Proof.
  destruct (Run0_total two_cpu_env 9 (core.New "tinytop" config_A) clock0) as [Hres _].
  - reflexivity.
  - vm_compute. lia.
  - exact Hres.
Defined.

Lemma no_fatal_line_written_witness :
  WarnLevel ≠ FatalLevel /\
  exists fl, Some flags_A = Some fl /\
    config.help fl = false /\ 0 < config.interval fl /\ 0 < config.duration fl /\
    os_Create demo_env (config.logFile fl) = None.
Proof.
  apply (no_fatal_line_written demo_env (Some flags_A) clock0 WarnLevel
           [Err "no swap"] "Failed to get swap devices").
  vm_compute. do 16 apply list_elem_of_further. apply list_elem_of_here.
Defined.

Lemma Run0_pacing_witness :
  0 + 0 + 0 + Z.of_nat 3 * core.Interval config_A <= 300 * Millisecond.
Proof.
  destruct (Run0_pacing demo_env 5 (core.New "tinytop" config_A) clock0) as [Hpolls _].
  - discriminate.
  - discriminate.
  - apply (Hpolls 3%nat (300 * Millisecond)). reflexivity.
Defined.
